(** * Unified MCP server: registry, auth gate and JSON-RPC dispatcher

    A shallow embedding of [lib/unified-mcp-server.ts] (classes
    [MCPToolRegistry], [MCPAuthManager] and [UnifiedMCPServer]) together
    with the properties of the request lifecycle.

    Conventions of the embedding:
    - JavaScript values that travel through the dispatcher are JSON values
      ([JSON]); [undefined] is the [None] of an [option JSON].
    - JSON numbers are restricted to integers ([Z]); the dispatcher only
      tests numbers for truthiness, prints them and echoes them back.
    - Strings are sequences of 8-bit code units; [String.length] plays the
      role of [.length].
    - A JavaScript [Map] is an insertion-ordered association list with
      distinct keys ([JSMap]).
    - [throw] and [try]/[catch] are an exception monad ([Exc]).
    - [async] functions are run to completion; a tool handler is a total
      function that either returns a JSON value or throws.
    - The mutable [VercelResponse] is threaded explicitly through
      [handleRequest]. *)

From Stdlib Require Import String Ascii ZArith List Bool Lia Sorted.
From stdpp Require Import base option list strings pretty gmap.
Import ListNotations.

Local Open Scope string_scope.
Local Open Scope Z_scope.

(** ** JSON values and the JavaScript operations applied to them *)

#[local] Set Warnings "-register-all".

Inductive JSON : Type :=
| JNull
| JBool (b : bool)
| JNum (n : Z)
| JStr (s : string)
| JArr (items : list JSON)
| JObj (fields : list (string * JSON)).

(** Own-property lookup in a parsed object: the first binding of the key. *)
Fixpoint assoc {V : Type} (k : string) (fields : list (string * V)) : option V :=
  match fields with
  | [] => None
  | (k', v) :: rest => if String.eqb k k' then Some v else assoc k rest
  end.

(** [v.k] for a value that is neither [undefined] nor [null]: primitives and
    arrays coming from a JSON body own none of the keys read here. *)
Definition prop (k : string) (v : JSON) : option JSON :=
  match v with
  | JObj fields => assoc k fields
  | _ => None
  end.

(** JavaScript truthiness, as used by [!x]. *)
Definition truthy (v : option JSON) : bool :=
  match v with
  | None => false
  | Some JNull => false
  | Some (JBool b) => b
  | Some (JNum n) => negb (n =? 0)
  | Some (JStr s) => negb (String.eqb s EmptyString)
  | Some (JArr _) => true
  | Some (JObj _) => true
  end.

(** ** Exceptions *)

Inductive Thrown : Type :=
| ThrowError (message : string)   (* an instance of [Error] *)
| ThrowOther.                     (* any other thrown value *)

Inductive Exc (A : Type) : Type :=
| Ok (a : A)
| Throw (e : Thrown).
Arguments Ok {A} a.
Arguments Throw {A} e.

Definition bindE {A B : Type} (m : Exc A) (f : A -> Exc B) : Exc B :=
  match m with
  | Ok a => f a
  | Throw e => Throw e
  end.

Notation "'let!' x ':=' m 'in' k" := (bindE m (fun x => k))
  (at level 10, x name, m at level 100, k at level 200).

(** ** Conversion to strings *)

Fixpoint join (sep : string) (parts : list string) : string :=
  match parts with
  | [] => EmptyString
  | [p] => p
  | p :: rest => p ++ sep ++ join sep rest
  end.

(** The double nearest to a positive integer, ties to even: the number a
    JSON integer denotes. *)
Definition toDouble (r : Z) : Z :=
  let b := Z.log2 r + 1 in
  if b <=? 53 then r
  else
    let sh := b - 53 in
    let q := Z.shiftr r sh in
    let rem := r - Z.shiftl q sh in
    let half := Z.shiftl 1 (sh - 1) in
    let q' := if (half <? rem) || ((rem =? half) && Z.odd q) then q + 1 else q in
    Z.shiftl q' sh.

(** [Number::toString] on integers. Below 2^53 every integer is written in
    full. Above, the digits are the shortest [s] (of [k] digits, scaled by
    [10^(n-k)]) that denote the same double, the closest such [s] if there
    are several; up to [n = 21] they are followed by zeros, beyond that the
    exponent form is used. *)
Definition decimal_length (x : Z) : Z := Z.of_nat (String.length (pretty x)).

Definition candidates (x k n : Z) : list (Z * Z) :=
  if n <? k then []
  else
    let p := 10 ^ (n - k) in
    List.map (fun s => (s, n))
      (List.filter
         (fun s => (10 ^ (k - 1) <=? s) && (s <? 10 ^ k) && (toDouble (s * p) =? x))
         [x / p; x / p + 1]).

Definition distance (x k : Z) (c : Z * Z) : Z := Z.abs (fst c * 10 ^ (snd c - k) - x).

Definition closer (x k : Z) (a b : Z * Z) : Z * Z :=
  if distance x k b <? distance x k a then b
  else if (distance x k b =? distance x k a) && Z.even (fst b) && negb (Z.even (fst a))
  then b else a.

Definition best (x d k : Z) : option (Z * Z) :=
  match (candidates x k d ++ candidates x k (d + 1))%list with
  | [] => None
  | c :: cs => Some (fold_left (closer x k) cs c)
  end.

Fixpoint shortest (x d : Z) (k : Z) (fuel : nat) : Z * Z * Z :=
  match best x d k with
  | Some (s, n) => (s, k, n)
  | None =>
      match fuel with
      | O => (x, d, d)
      | S fuel' => shortest x d (k + 1) fuel'
      end
  end.

Fixpoint zeros (n : nat) : string :=
  match n with O => EmptyString | S n' => String "0" (zeros n') end.

Definition render (skn : Z * Z * Z) : string :=
  let '(s, k, n) := skn in
  let digits := pretty s in
  if n <=? 21 then digits ++ zeros (Z.to_nat (n - k))
  else
    match digits with
    | String d rest =>
        String d (if (k =? 1) then EmptyString else "." ++ rest)
          ++ "e+" ++ pretty (n - 1)
    | EmptyString => EmptyString
    end.

Definition positive_toString (n : Z) : string :=
  if n <? 2 ^ 53 then pretty n
  else
    let x := toDouble n in
    if 2 ^ 1024 <=? x then "Infinity" else render (shortest x (decimal_length x) 1 16).

Definition Number_toString (n : Z) : string :=
  if n =? 0 then "0"
  else if n <? 0 then "-" ++ positive_toString (- n)
  else positive_toString n.

(** The integer denotes a finite double. *)
Definition finite (n : Z) : bool :=
  if Z.abs n <? 2 ^ 53 then true else toDouble (Z.abs n) <? 2 ^ 1024.

(** [ToString] as applied by a template literal. An object of a parsed body
    is printed by [Object.prototype.toString] unless it owns a [toString]
    member: that member is not callable and neither conversion method
    yields a primitive, which is a [TypeError] (message as worded by V8).
    An array joins the strings of its elements with commas, [null] counting
    as the empty string. *)
Fixpoint toString (v : JSON) : Exc string :=
  match v with
  | JNull => Ok "null"
  | JBool true => Ok "true"
  | JBool false => Ok "false"
  | JNum n => Ok (Number_toString n)
  | JStr s => Ok s
  | JArr items =>
      let fix elements (l : list JSON) : Exc (list string) :=
        match l with
        | [] => Ok []
        | x :: rest =>
            let! s := match x with
                      | JNull => Ok EmptyString
                      | _ => toString x
                      end in
            let! ss := elements rest in
            Ok (s :: ss)
        end in
      let! parts := elements items in
      Ok (join "," parts)
  | JObj fields =>
      match assoc "toString" fields with
      | Some _ => Throw (ThrowError "Cannot convert object to primitive value")
      | None => Ok "[object Object]"
      end
  end.

Definition template (v : option JSON) : Exc string :=
  match v with
  | None => Ok "undefined"
  | Some x => toString x
  end.

(** [s.startsWith(p)] and [s.substring(n)]. *)
Definition startsWith (s p : string) : bool := String.prefix p s.

Definition substring_from (n : nat) (s : string) : string :=
  String.substring n (String.length s - n) s.

(** ** JavaScript [Map] with string keys *)

Definition JSMap (V : Type) : Type := list (string * V).

(** [m.set(k, v)]: an existing key keeps its position, a new key goes last. *)
Fixpoint map_set {V : Type} (k : string) (v : V) (m : JSMap V) : JSMap V :=
  match m with
  | [] => [(k, v)]
  | (k', v') :: rest =>
      if String.eqb k k' then (k, v) :: rest else (k', v') :: map_set k v rest
  end.

Definition map_get {V : Type} (k : string) (m : JSMap V) : option V := assoc k m.

Definition map_values {V : Type} (m : JSMap V) : list V := List.map snd m.

Definition map_keys {V : Type} (m : JSMap V) : list string := List.map fst m.

(** [[...new Set(xs)]]: distinct elements in order of first occurrence. *)
Definition set_add (acc : list string) (x : string) : list string :=
  if existsb (String.eqb x) acc then acc else acc ++ [x].

Definition Set_from (xs : list string) : list string :=
  fold_left set_add xs [].

(** ** Protocol types *)

Record MCPError : Type := mkMCPError {
  code : Z;
  message : string;
  data : option JSON
}.

(** [MCPResponse]: [resp_id], [result] and [error] are optional members;
    [None] means the member is absent from the object. *)
Record MCPResponse : Type := mkMCPResponse {
  jsonrpc : string;
  resp_id : option JSON;
  result : option JSON;
  error : option MCPError
}.

Record MCPTool : Type := mkMCPTool {
  name : string;
  description : string;
  inputSchema : JSON;
  outputSchema : option JSON;
  category : string
}.

(** Error codes following the MCP specification ([MCP_ERRORS]). *)
Module MCP_ERRORS.
Definition PARSE_ERROR : Z := -32700.
Definition INVALID_REQUEST : Z := -32600.
Definition METHOD_NOT_FOUND : Z := -32601.
Definition INVALID_PARAMS : Z := -32602.
Definition INTERNAL_ERROR : Z := -32603.
Definition SERVER_ERROR : Z := -32000.
Definition AUTHENTICATION_ERROR : Z := -32001.
Definition RATE_LIMIT_EXCEEDED : Z := -32002.
End MCP_ERRORS.

(** ** Transport: the request and the response of the serverless function *)

(** [req.body]: reading it throws when the platform cannot parse the body;
    otherwise it is a parsed value or [undefined]. *)
Inductive Body : Type :=
| BodyThrows (e : Thrown)
| BodyValue (v : option JSON).

(** Header names of an incoming request are lower-cased by the platform. *)
Record VercelRequest : Type := mkRequest {
  method : string;
  headers : gmap string string;
  body : Body
}.

Inductive Payload : Type :=
| NotSent
| Ended                     (* [res.end()]: no body *)
| Json (r : MCPResponse).   (* [res.json(r)] *)

(** What the code has done to the response object: [resHeaders] holds the
    headers given to [res.setHeader], under the names as written there,
    [statusCode] the argument of [res.status], [payload] the call that sent
    the answer. The headers that the platform derives from the body when
    [res.json] sends it ([Content-Type], [Content-Length], [ETag]) are part
    of that call and are not listed in [resHeaders]. *)
Record VercelResponse : Type := mkResponse {
  resHeaders : gmap string string;
  statusCode : Z;
  payload : Payload
}.

Definition newResponse : VercelResponse :=
  {| resHeaders := ∅; statusCode := 200; payload := NotSent |}.

Definition setHeader (k v : string) (res : VercelResponse) : VercelResponse :=
  {| resHeaders := <[k := v]> (resHeaders res);
     statusCode := statusCode res;
     payload := payload res |}.

Definition status (n : Z) (res : VercelResponse) : VercelResponse :=
  {| resHeaders := resHeaders res; statusCode := n; payload := payload res |}.

Definition json (r : MCPResponse) (res : VercelResponse) : VercelResponse :=
  {| resHeaders := resHeaders res; statusCode := statusCode res; payload := Json r |}.

Definition end_ (res : VercelResponse) : VercelResponse :=
  {| resHeaders := resHeaders res; statusCode := statusCode res; payload := Ended |}.

(** ** Authentication manager *)

Record Auth : Type := mkAuth {
  type : string;
  credential : string
}.

Module MCPAuthManager.

Definition validateApiKey (apiKey : string) : bool :=
  negb (String.eqb apiKey EmptyString) && (10 <? String.length apiKey)%nat.

Definition validateJWT (token : string) : bool :=
  negb (String.eqb token EmptyString) && startsWith token "eyJ".

Definition extractAuthFromRequest (req : VercelRequest) : option Auth :=
  match headers req !! "authorization" with
  | None => None
  | Some authHeader =>
      if String.eqb authHeader EmptyString then None
      else if startsWith authHeader "Bearer " then
        let token := substring_from 7 authHeader in
        if startsWith token "eyJ"
        then Some {| type := "jwt"; credential := token |}
        else Some {| type := "api_key"; credential := token |}
      else None
  end.

End MCPAuthManager.

(** ** Tool registry *)

(** The per-request context handed to every handler: [{ auth, req }]. *)
Record Context : Type := mkContext {
  ctx_auth : Auth;
  ctx_req : VercelRequest
}.

(** A handler receives [(params, context)]. *)
Definition Handler : Type := option JSON -> Context -> Exc JSON.

Record MCPToolRegistry : Type := mkRegistry {
  tools : JSMap MCPTool;
  handlers : JSMap Handler
}.

Definition emptyRegistry : MCPToolRegistry := {| tools := []; handlers := [] |}.

Definition registerTool (tool : MCPTool) (handler : Handler)
    (reg : MCPToolRegistry) : MCPToolRegistry :=
  {| tools := map_set (name tool) tool (tools reg);
     handlers := map_set (name tool) handler (handlers reg) |}.

Definition getTool (nm : string) (reg : MCPToolRegistry) : option MCPTool :=
  map_get nm (tools reg).

Definition getAllTools (reg : MCPToolRegistry) : list MCPTool :=
  map_values (tools reg).

Definition executeTool (nm : string) (params : option JSON) (context : Context)
    (reg : MCPToolRegistry) : Exc JSON :=
  match map_get nm (handlers reg) with
  | None => Throw (ThrowError ("Tool '" ++ nm ++ "' not found"))
  | Some handler => handler params context
  end.

Definition getToolsByCategory (cat : string) (reg : MCPToolRegistry) : list MCPTool :=
  List.filter (fun tool => String.eqb (category tool) cat) (map_values (tools reg)).

(** A sequence of [registerTool] calls, applied in order. *)
Definition registerAll (calls : list (MCPTool * Handler))
    (reg : MCPToolRegistry) : MCPToolRegistry :=
  fold_left (fun r call => registerTool (fst call) (snd call) r) calls reg.

(** ** The unified server *)

Record UnifiedMCPServer : Type := mkServer {
  registry : MCPToolRegistry
}.

Definition tool_json (t : MCPTool) : JSON :=
  JObj ([("name", JStr (name t));
         ("description", JStr (description t));
         ("inputSchema", inputSchema t)]
        ++ match outputSchema t with
           | Some s => [("outputSchema", s)]
           | None => []
           end
        ++ [("category", JStr (category t))]).

Definition is_str (v : option JSON) (s : string) : bool :=
  match v with
  | Some (JStr t) => String.eqb t s
  | _ => false
  end.

Definition createErrorResponse (id : option JSON) (c : Z) (msg : string)
    (d : option JSON) : MCPResponse :=
  {| jsonrpc := "2.0";
     resp_id := id;
     result := None;
     error := Some {| code := c; message := msg; data := d |} |}.

Definition setCorsHeaders (res : VercelResponse) : VercelResponse :=
  setHeader "Access-Control-Max-Age" "86400"
    (setHeader "Access-Control-Allow-Headers" "Content-Type, Authorization"
      (setHeader "Access-Control-Allow-Methods" "GET, POST, OPTIONS"
        (setHeader "Access-Control-Allow-Origin" "*" res))).

Definition handleInitialize : JSON :=
  JObj [("protocolVersion", JStr "2024-11-05");
        ("capabilities",
          JObj [("tools", JObj []); ("resources", JObj []); ("prompts", JObj [])]);
        ("serverInfo",
          JObj [("name", JStr "unified-mcp-server");
                ("version", JStr "1.0.0");
                ("description",
                  JStr "Unified MCP server with Supabase and MoneyPrinterTurbo capabilities")])].

Definition handleListTools (srv : UnifiedMCPServer) : JSON :=
  JObj [("tools", JArr (List.map tool_json (getAllTools (registry srv))))].

(** [const { name, arguments: args } = params] throws a [TypeError] on
    [undefined] and [null] (message as worded by V8). *)
Definition handleCallTool (srv : UnifiedMCPServer) (params : option JSON)
    (context : Context) : Exc JSON :=
  match params with
  | None =>
      Throw (ThrowError "Cannot destructure property 'name' of 'params' as it is undefined.")
  | Some JNull =>
      Throw (ThrowError "Cannot destructure property 'name' of 'params' as it is null.")
  | Some p =>
      let nm := prop "name" p in
      let args := prop "arguments" p in
      if negb (truthy nm) then Throw (ThrowError "Tool name is required")
      else
        match nm with
        | Some (JStr s) =>
            match getTool s (registry srv) with
            | None =>
                let! printed := template nm in
                Throw (ThrowError ("Tool '" ++ printed ++ "' not found"))
            | Some _ => executeTool s args context (registry srv)
            end
        | _ =>
            (* the keys of the map are strings: no other value is found *)
            let! printed := template nm in
            Throw (ThrowError ("Tool '" ++ printed ++ "' not found"))
        end
  end.

(** The pairs [{ name: cat, count }] of the capabilities result. *)
Definition category_counts (reg : MCPToolRegistry) : list (string * nat) :=
  let tls := getAllTools reg in
  let categories := Set_from (List.map category tls) in
  List.map (fun cat => (cat, length (getToolsByCategory cat reg))) categories.

Definition handleGetCapabilities (srv : UnifiedMCPServer) : JSON :=
  let tls := getAllTools (registry srv) in
  JObj [("capabilities", JArr [JStr "tools"; JStr "resources"]);
        ("tools",
          JObj [("total", JNum (Z.of_nat (length tls)));
                ("categories",
                  JArr (List.map
                          (fun cc => JObj [("name", JStr (fst cc));
                                           ("count", JNum (Z.of_nat (snd cc)))])
                          (category_counts (registry srv))))]);
        ("version", JStr "1.0.0")].

(** The [switch] of [processRequest]: either an early [return] of a
    response ([inl]) or the [result] of the selected operation ([inr]). *)
Definition route (srv : UnifiedMCPServer) (request : JSON) (context : Context)
    : Exc (MCPResponse + JSON) :=
  let m := prop "method" request in
  if is_str m "initialize" then Ok (inr handleInitialize)
  else if is_str m "tools/list" then Ok (inr (handleListTools srv))
  else if is_str m "tools/call" then
    let! r := handleCallTool srv (prop "params" request) context in Ok (inr r)
  else if is_str m "server/capabilities" then Ok (inr (handleGetCapabilities srv))
  else
    let! printed := template m in
    Ok (inl (createErrorResponse (prop "id" request)
               MCP_ERRORS.METHOD_NOT_FOUND
               ("Method not found: " ++ printed) None)).

Definition processRequest (srv : UnifiedMCPServer) (request : JSON)
    (context : Context) : MCPResponse :=
  match route srv request context with
  | Ok (inl early) => early
  | Ok (inr r) =>
      {| jsonrpc := "2.0"; resp_id := prop "id" request;
         result := Some r; error := None |}
  | Throw e =>
      createErrorResponse (prop "id" request) MCP_ERRORS.INTERNAL_ERROR
        (match e with
         | ThrowError msg => msg
         | ThrowOther => "Unknown error"
         end) None
  end.

Definition read_body (req : VercelRequest) : Exc (option JSON) :=
  match body req with
  | BodyThrows e => Throw e
  | BodyValue v => Ok v
  end.

Definition isValid (auth : Auth) : bool :=
  if String.eqb (type auth) "jwt"
  then MCPAuthManager.validateJWT (credential auth)
  else MCPAuthManager.validateApiKey (credential auth).

(** The body of the [try] block of [handleRequest]. *)
Definition handleRequest_try (srv : UnifiedMCPServer) (req : VercelRequest)
    (res : VercelResponse) : Exc VercelResponse :=
  if negb (String.eqb (method req) "POST") then
    Ok (json (createErrorResponse (Some (JStr "method_not_allowed"))
                MCP_ERRORS.INVALID_REQUEST "Method not allowed" None)
             (status 405 res))
  else
    match MCPAuthManager.extractAuthFromRequest req with
    | None =>
        Ok (json (createErrorResponse (Some (JStr "auth_required"))
                    MCP_ERRORS.AUTHENTICATION_ERROR "Authentication required" None)
                 (status 401 res))
    | Some auth =>
        if negb (isValid auth) then
          Ok (json (createErrorResponse (Some (JStr "auth_invalid"))
                      MCP_ERRORS.AUTHENTICATION_ERROR "Invalid credentials" None)
                   (status 401 res))
        else
          let! mcpRequest := read_body req in
          match mcpRequest with
          | Some request =>
              if negb (truthy mcpRequest) || negb (is_str (prop "jsonrpc" request) "2.0")
              then
                Ok (json (createErrorResponse (Some (JStr "invalid_request"))
                            MCP_ERRORS.INVALID_REQUEST "Invalid JSON-RPC request" None)
                         (status 400 res))
              else
                let response :=
                  processRequest srv request {| ctx_auth := auth; ctx_req := req |} in
                Ok (json response (status 200 res))
          | None =>
              Ok (json (createErrorResponse (Some (JStr "invalid_request"))
                          MCP_ERRORS.INVALID_REQUEST "Invalid JSON-RPC request" None)
                       (status 400 res))
          end
    end.

Definition handleRequest (srv : UnifiedMCPServer) (req : VercelRequest)
    (res : VercelResponse) : VercelResponse :=
  let res := setCorsHeaders res in
  if String.eqb (method req) "OPTIONS" then end_ (status 200 res)
  else
    match handleRequest_try srv req res with
    | Ok res' => res'
    | Throw _ =>
        json (createErrorResponse (Some (JStr "internal_error"))
                MCP_ERRORS.INTERNAL_ERROR "Internal server error" None)
             (status 500 res)
    end.

(** ** Notions used by the statements *)

(** The last [registerTool] call made for a name, if any. *)
Definition last_registration (nm : string) (calls : list (MCPTool * Handler))
    : option (MCPTool * Handler) :=
  List.find (fun call => String.eqb (name (fst call)) nm) (rev calls).

(** What [registerTool] maintains: keys are distinct, every descriptor is
    stored under its own name, and both maps have the same keys. *)
Record registry_ok (reg : MCPToolRegistry) : Prop := mkRegistryOk {
  ok_nodup : NoDup (map_keys (tools reg));
  ok_named : forall k t, (k, t) ∈ tools reg -> name t = k;
  ok_same_keys : map_keys (handlers reg) = map_keys (tools reg)
}.

(** The request passed every check that precedes routing: it is a POST, it
    carries the credential [auth], the credential is valid, and its body is
    the envelope [request] with [jsonrpc === "2.0"]. *)
Definition dispatched (req : VercelRequest) (auth : Auth) (request : JSON) : Prop :=
  method req = "POST"
  /\ MCPAuthManager.extractAuthFromRequest req = Some auth
  /\ isValid auth = true
  /\ body req = BodyValue (Some request)
  /\ is_str (prop "jsonrpc" request) "2.0" = true.

(** The [id] member of the envelope in the body of a request, if any. *)
Definition request_id (req : VercelRequest) : option JSON :=
  match body req with
  | BodyValue (Some request) => prop "id" request
  | _ => None
  end.

(** The labels used as [id] by the answers given before routing. *)
Definition early_labels : list string :=
  ["method_not_allowed"; "auth_required"; "auth_invalid"; "invalid_request";
   "internal_error"].

(** The name asked for by [tools/call] is a key of the registry. *)
Definition registered (nm : JSON) (reg : MCPToolRegistry) : bool :=
  match nm with
  | JStr s => match getTool s reg with Some _ => true | None => false end
  | _ => false
  end.

(** A response carries exactly one of [result] and [error]. *)
Definition exactly_one (r : MCPResponse) : Prop :=
  (is_Some (result r) /\ error r = None) \/ (result r = None /\ is_Some (error r)).

Definition with_header (k v : string) (req : VercelRequest) : VercelRequest :=
  {| method := method req; headers := <[k := v]> (headers req); body := body req |}.

(** ** Sample data: descriptors of the providers, requests of the integration tests *)

Definition supabase_query : MCPTool :=
  {| name := "supabase_query";
     description := "Execute a SQL query on Supabase database";
     inputSchema :=
       JObj [("type", JStr "object");
             ("properties",
               JObj [("query", JObj [("type", JStr "string");
                                     ("description", JStr "SQL query to execute")]);
                     ("params", JObj [("type", JStr "array");
                                      ("description", JStr "Query parameters")])]);
             ("required", JArr [JStr "query"])];
     outputSchema := None;
     category := "database" |}.

Definition supabase_insert : MCPTool :=
  {| name := "supabase_insert";
     description := "Insert data into a Supabase table";
     inputSchema :=
       JObj [("type", JStr "object");
             ("properties",
               JObj [("table", JObj [("type", JStr "string");
                                     ("description", JStr "Table name")]);
                     ("data", JObj [("type", JStr "object");
                                    ("description", JStr "Data to insert")])]);
             ("required", JArr [JStr "table"; JStr "data"])];
     outputSchema := None;
     category := "database" |}.

Definition generate_video_script : MCPTool :=
  {| name := "generate_video_script";
     description := "Generate a video script based on a subject and parameters";
     inputSchema :=
       JObj [("type", JStr "object");
             ("properties",
               JObj [("video_subject",
                       JObj [("type", JStr "string");
                             ("description", JStr "The subject/topic for the video")]);
                     ("language",
                       JObj [("type", JStr "string");
                             ("description", JStr "Language for the script");
                             ("default", JStr EmptyString)]);
                     ("paragraph_number",
                       JObj [("type", JStr "integer");
                             ("description", JStr "Number of paragraphs");
                             ("default", JNum 1);
                             ("minimum", JNum 1);
                             ("maximum", JNum 10)])]);
             ("required", JArr [JStr "video_subject"])];
     outputSchema := None;
     category := "video_generation" |}.

(** A second descriptor under the name of [supabase_query]. *)
Definition supabase_query_again : MCPTool :=
  {| name := "supabase_query";
     description := "Run SQL";
     inputSchema := JObj [("type", JStr "object")];
     outputSchema := None;
     category := "sql" |}.

(** Stand-ins for the handlers of the providers. *)
Definition handler_ok : Handler :=
  fun _ _ => Ok (JObj [("success", JBool true); ("data", JArr [])]).

Definition handler_failing : Handler :=
  fun _ _ => Throw (ThrowError "Failed to execute query: Unknown error").

Definition sample_calls : list (MCPTool * Handler) :=
  [(supabase_query, handler_failing);
   (supabase_insert, handler_failing);
   (generate_video_script, handler_ok)].

Definition sample_server : UnifiedMCPServer :=
  {| registry := registerAll sample_calls emptyRegistry |}.

Definition post (authorization : option string) (payload : JSON) : VercelRequest :=
  {| method := "POST";
     headers :=
       match authorization with
       | Some h => <["authorization" := h]> {["content-type" := "application/json"]}
       | None => {["content-type" := "application/json"]}
       end;
     body := BodyValue (Some payload) |}.

Definition envelope (version id meth : string) (params : option JSON) : JSON :=
  JObj ([("jsonrpc", JStr version); ("id", JStr id); ("method", JStr meth)]
        ++ match params with Some p => [("params", p)] | None => [] end).

(** [testApiKey] and [invalidApiKey] of the integration tests. *)
Definition testApiKey : string := "test-api-key-123456789".
Definition invalidApiKey : string := "invalid-key-123".

Definition unknown_tool_params : JSON :=
  JObj [("name", JStr "unknown_tool"); ("arguments", JObj [])].

Definition unknown_tool_envelope : JSON :=
  envelope "2.0" "test-error-3" "tools/call" (Some unknown_tool_params).

Definition unknown_tool_request : VercelRequest :=
  post (Some ("Bearer " ++ testApiKey)) unknown_tool_envelope.

Definition nameless_call_envelope : JSON :=
  envelope "2.0" "call-1" "tools/call" (Some (JObj [("arguments", JObj [])])).

Definition nameless_call_request : VercelRequest :=
  post (Some ("Bearer " ++ testApiKey)) nameless_call_envelope.

Definition old_version_envelope : JSON :=
  envelope "1.0" "test-error-1" "tools/list" None.

Definition old_version_request : VercelRequest :=
  post (Some ("Bearer " ++ testApiKey)) old_version_envelope.

Definition list_tools_envelope : JSON :=
  envelope "2.0" "test-auth-2" "tools/list" (Some (JObj [])).

Definition invalid_key_request : VercelRequest :=
  post (Some ("Bearer " ++ invalidApiKey)) list_tools_envelope.

Definition short_key_request : VercelRequest :=
  post (Some "Bearer short") list_tools_envelope.


Definition list_tools_request : VercelRequest :=
  post (Some ("Bearer " ++ testApiKey)) list_tools_envelope.


Definition options_request : VercelRequest :=
  {| method := "OPTIONS";
     headers := {["authorization" := "Bearer short"]};
     body := BodyThrows (ThrowError "Invalid JSON") |}.

(** The client library's [JWT <token>] scheme next to an [x-api-key] header. *)
Definition jwt_scheme_request : VercelRequest :=
  with_header "x-api-key" testApiKey
    (post (Some "JWT eyJhbGciOiJIUzI1NiJ9.e30.abc") list_tools_envelope).

Definition testAuth : Auth := {| type := "api_key"; credential := testApiKey |}.

(** ** Construction of the server and the serverless entry point *)

(** [validateEnvironment]: [env] is [process.env]; a variable that is unset
    or empty counts as missing. *)
Definition requiredVars : list string := ["SUPABASE_URL"; "SUPABASE_ANON_KEY"].

Definition env_missing (env : gmap string string) (varName : string) : bool :=
  match env !! varName with
  | None => true
  | Some v => String.eqb v EmptyString
  end.

Definition validateEnvironment (env : gmap string string) : Exc unit :=
  let missing := List.filter (env_missing env) requiredVars in
  if (0 <? length missing)%nat
  then Throw (ThrowError ("Missing required environment variables: " ++ join ", " missing))
  else Ok tt.

(** What the constructor of the server reads from its surroundings: the
    environment, whether [require('@supabase/supabase-js')] succeeded, and
    the [registerTool] calls made by the two providers (their handlers close
    over the database client). *)
Record Platform : Type := mkPlatform {
  env : gmap string string;
  createClient_loaded : bool;
  supabase_registrations : list (MCPTool * Handler);
  moneyPrinter_registrations : list (MCPTool * Handler)
}.

(** [new SupabaseToolsProvider()]; calling the [null] left by a failed
    [require] is a [TypeError] (message as worded by V8). *)
Definition SupabaseToolsProvider_new (p : Platform) : Exc unit :=
  let! _ := validateEnvironment (env p) in
  if createClient_loaded p then Ok tt
  else Throw (ThrowError "createClient is not a function").

(** [new UnifiedMCPServer()], with [initializeTools]. *)
Definition UnifiedMCPServer_new (p : Platform) : Exc UnifiedMCPServer :=
  let! _ := SupabaseToolsProvider_new p in
  Ok {| registry :=
          registerAll (moneyPrinter_registrations p)
            (registerAll (supabase_registrations p) emptyRegistry) |}.

(** [getServerInstance] of [api/server.ts]: the module variable [mcpServer]
    is threaded as state. *)
Definition getServerInstance (p : Platform) (mcpServer : option UnifiedMCPServer)
    : Exc UnifiedMCPServer * option UnifiedMCPServer :=
  match mcpServer with
  | Some server => (Ok server, Some server)
  | None =>
      match UnifiedMCPServer_new p with
      | Ok server => (Ok server, Some server)
      | Throw e => (Throw e, None)
      end
  end.

Definition headersSent (res : VercelResponse) : bool :=
  match payload res with
  | NotSent => false
  | _ => true
  end.

(** [a || b] on header values. *)
Definition or_else (v : option string) (d : string) : string :=
  match v with
  | Some s => if String.eqb s EmptyString then d else s
  | None => d
  end.

(** The default export of [api/server.ts]; [timestamp] is
    [new Date().toISOString()]. *)
Definition handler (p : Platform) (timestamp : string)
    (mcpServer : option UnifiedMCPServer) (req : VercelRequest) (res : VercelResponse)
    : VercelResponse * option UnifiedMCPServer :=
  match getServerInstance p mcpServer with
  | (Ok server, st) => (handleRequest server req res, st)
  | (Throw e, st) =>
      if negb (headersSent res) then
        let res :=
          setHeader "Access-Control-Allow-Headers" "Content-Type, Authorization"
            (setHeader "Access-Control-Allow-Methods" "GET, POST, OPTIONS"
              (setHeader "Access-Control-Allow-Origin" "*" res)) in
        (json {| jsonrpc := "2.0";
                 resp_id := None;
                 result := None;
                 error :=
                   Some {| code := -32603;
                           message := "Internal server error";
                           data :=
                             Some (JObj
                               [("error",
                                  JStr (match e with
                                        | ThrowError msg => msg
                                        | ThrowOther => "Unknown critical error"
                                        end));
                                ("timestamp", JStr timestamp);
                                ("requestId",
                                  JStr (or_else (headers req !! "x-vercel-id")
                                          "unknown"))]) |} |}
              (status 500 res), st)
      else (res, st)
  end.


(** A platform for the sample server. *)
Definition sample_platform (e : gmap string string) : Platform :=
  {| env := e;
     createClient_loaded := true;
     supabase_registrations :=
       [(supabase_query, handler_failing); (supabase_insert, handler_failing)];
     moneyPrinter_registrations := [(generate_video_script, handler_ok)] |}.

Definition sample_env : gmap string string :=
  <["SUPABASE_ANON_KEY" := "anon-key"]> {["SUPABASE_URL" := "https://example.supabase.co"]}.

(** ** The client SDK ([lib/mcp-client-vercel.ts]) *)

Module VercelMCPClient.

(** *** Cache keys *)

(** [ToInt32]: the value modulo 2^32, read as a signed 32-bit integer. *)
Definition toInt32 (z : Z) : Z :=
  let m := z mod 2 ^ 32 in
  if m <? 2 ^ 31 then m else m - 2 ^ 32.

(** [a << n] and [a & b] on numbers. *)
Definition shl32 (a : Z) (n : Z) : Z := toInt32 (Z.shiftl (toInt32 a) n).

Definition and32 (a b : Z) : Z := toInt32 (Z.land (toInt32 a) (toInt32 b)).

(** One round of the loop of [getCacheKey]:
    [hash = ((hash << 5) - hash) + char; hash = hash & hash]. *)
Definition hash_step (hash : Z) (char : Z) : Z :=
  let hash := (shl32 hash 5 - hash) + char in
  and32 hash hash.

(** [keyData.charCodeAt(i)] for every [i]. *)
Definition charCodes (s : string) : list Z :=
  List.map (fun c => Z.of_nat (Ascii.nat_of_ascii c)) (String.list_ascii_of_string s).

Definition hash_codes (codes : list Z) : Z := fold_left hash_step codes 0.

Definition digit36 (d : Z) : string :=
  String.substring (Z.to_nat d) 1 "0123456789abcdefghijklmnopqrstuvwxyz".

(** The digits of a non-negative integer in base 36, most significant
    first; [fuel] bounds the number of digits after the first. *)
Fixpoint digits36 (fuel : nat) (n : Z) (acc : string) : string :=
  if n <? 36 then digit36 n ++ acc
  else
    match fuel with
    | O => digit36 (n mod 36) ++ acc
    | S fuel' => digits36 fuel' (n / 36) (digit36 (n mod 36) ++ acc)
    end.

(** [n.toString(36)] for an integer [n]. *)
Definition toString36 (n : Z) : string :=
  if n <? 0 then "-" ++ digits36 (Z.to_nat (Z.log2 (- n))) (- n) EmptyString
  else digits36 (Z.to_nat (Z.log2 n)) n EmptyString.

(** The double-quote character (code 34). *)
Definition dquote : string := String (Ascii.ascii_of_nat 34) EmptyString.

Definition hex4 (n : nat) : string :=
  "00" ++ String.substring (n / 16) 1 "0123456789abcdef"
       ++ String.substring (n mod 16) 1 "0123456789abcdef".

(** [QuoteJSONString], one code unit at a time. *)
Definition quote_char (c : ascii) : string :=
  let n := Ascii.nat_of_ascii c in
  if (n =? 8)%nat then "\b"
  else if (n =? 9)%nat then "\t"
  else if (n =? 10)%nat then "\n"
  else if (n =? 12)%nat then "\f"
  else if (n =? 13)%nat then "\r"
  else if (n =? 34)%nat then "\" ++ dquote
  else if (n =? 92)%nat then "\\"
  else if (n <? 32)%nat then "\u" ++ hex4 n
  else String c EmptyString.

Definition quote (s : string) : string :=
  dquote ++ String.concat EmptyString (List.map quote_char (String.list_ascii_of_string s))
         ++ dquote.

(** What [Get(o, P)] finds on a plain object that has no member [P] of its
    own. The members of [Object.prototype] are functions, which are not
    written, except the accessor [__proto__]: it yields [Object.prototype]
    itself, an object whose only member written under a property list is
    again [__proto__], then [null]. *)
Definition inherited (P : string) : option string :=
  if String.eqb P "__proto__" then Some ("{" ++ quote "__proto__" ++ ":null}")
  else None.

(** [JSON.stringify(v, K)] with an array [K] as replacer ([K] without
    duplicates): at every depth an object is written with the members named
    in [K] that it has, in the order of [K]; arrays are written whole; a
    number that is not finite is written [null]. *)
Fixpoint stringify (K : list string) (v : JSON) : string :=
  match v with
  | JNull => "null"
  | JBool true => "true"
  | JBool false => "false"
  | JNum n => if finite n then Number_toString n else "null"
  | JStr s => quote s
  | JArr items => "[" ++ join "," (List.map (stringify K) items) ++ "]"
  | JObj fields =>
      let written := List.map (fun kv => (fst kv, stringify K (snd kv))) fields in
      "{" ++ join ","
               (omap (fun P => match assoc P written with
                               | Some text => Some (quote P ++ ":" ++ text)
                               | None =>
                                   match inherited P with
                                   | Some text => Some (quote P ++ ":" ++ text)
                                   | None => None
                                   end
                               end) K)
          ++ "}"
  end.

Fixpoint insert_sorted (x : string) (l : list string) : list string :=
  match l with
  | [] => [x]
  | y :: rest => if String.leb x y then x :: y :: rest else y :: insert_sorted x rest
  end.

(** [xs.sort()] on strings: ascending order of code units. *)
Definition sort_strings (xs : list string) : list string :=
  fold_right insert_sorted [] xs.

(** [Object.keys(o)] up to order. *)
Definition keys (fields : list (string * JSON)) : list string :=
  Set_from (List.map fst fields).

Definition keyData (toolName : string) (parameters : list (string * JSON)) : string :=
  toolName ++ ":" ++ stringify (sort_strings (keys parameters)) (JObj parameters).

Definition getCacheKey (toolName : string) (parameters : list (string * JSON)) : string :=
  toString36 (hash_codes (charCodes (keyData toolName parameters))).

(** *** Configuration and state *)

(** [Required<MCPClientConfig>]; times are in milliseconds. *)
Record MCPClientConfig : Type := mkConfig {
  serverUrl : string;
  authType : string;
  apiKey : option string;
  token : option string;
  timeout : Z;
  maxRetries : Z;
  retryDelay : Z;
  enableCaching : bool;
  cacheTtl : Z
}.

(** The argument of the constructor: only [serverUrl] is mandatory. *)
Record MCPClientOptions : Type := mkOptions {
  o_serverUrl : string;
  o_authType : option string;
  o_apiKey : option string;
  o_token : option string;
  o_timeout : option Z;
  o_maxRetries : option Z;
  o_retryDelay : option Z;
  o_enableCaching : option bool;
  o_cacheTtl : option Z
}.

Inductive ConnectionState : Type :=
| DISCONNECTED
| CONNECTING
| CONNECTED
| FAILED.

Record CacheEntry : Type := mkEntry {
  cached : option JSON;    (* [result] *)
  timestamp : Z
}.

Record Client : Type := mkClient {
  config : MCPClientConfig;
  cache : JSMap CacheEntry;
  availableTools : JSON;
  state : ConnectionState
}.

(** The constructor: defaults, overridden by the members that are given. *)
Definition new (o : MCPClientOptions) : Client :=
  {| config :=
       {| serverUrl := o_serverUrl o;
          authType := default "api_key" (o_authType o);
          apiKey := o_apiKey o;
          token := o_token o;
          timeout := default 30000 (o_timeout o);
          maxRetries := default 3 (o_maxRetries o);
          retryDelay := default 1000 (o_retryDelay o);
          enableCaching := default true (o_enableCaching o);
          cacheTtl := default 300000 (o_cacheTtl o) |};
     cache := [];
     availableTools := JArr [];
     state := DISCONNECTED |}.

Definition set_state (s : ConnectionState) (cl : Client) : Client :=
  {| config := config cl; cache := cache cl;
     availableTools := availableTools cl; state := s |}.

Definition set_cache (m : JSMap CacheEntry) (cl : Client) : Client :=
  {| config := config cl; cache := m;
     availableTools := availableTools cl; state := state cl |}.

Definition set_tools (t : JSON) (cl : Client) : Client :=
  {| config := config cl; cache := cache cl; availableTools := t; state := state cl |}.

(** *** The result cache *)

(** [m.delete(k)]. *)
Definition map_delete {V : Type} (k : string) (m : JSMap V) : JSMap V :=
  List.filter (fun kv => negb (String.eqb (fst kv) k)) m.

(** [getCachedResult]; [now] is [Date.now()]. The value returned is [null]
    when nothing usable is cached. *)
Definition getCachedResult (now : Z) (cacheKey : string) (cl : Client)
    : option JSON * Client :=
  match map_get cacheKey (cache cl) with
  | None => (Some JNull, cl)
  | Some entry =>
      if cacheTtl (config cl) <? now - timestamp entry
      then (Some JNull, set_cache (map_delete cacheKey (cache cl)) cl)
      else (cached entry, cl)
  end.

Fixpoint insert_entry (x : string * CacheEntry) (l : list (string * CacheEntry))
    : list (string * CacheEntry) :=
  match l with
  | [] => [x]
  | y :: rest =>
      if timestamp (snd x) <=? timestamp (snd y)
      then x :: y :: rest
      else y :: insert_entry x rest
  end.

(** [entries.sort(([,a], [,b]) => a.timestamp - b.timestamp)]: ascending
    timestamps, entries with equal timestamps in their original order. *)
Definition sort_entries (entries : list (string * CacheEntry))
    : list (string * CacheEntry) :=
  fold_right insert_entry [] entries.

(** [cacheResult]; [now] is [Date.now()]. *)
Definition cacheResult (now : Z) (cacheKey : string) (r : option JSON) (cl : Client)
    : Client :=
  let m := map_set cacheKey {| cached := r; timestamp := now |} (cache cl) in
  if (100 <? length m)%nat then
    match sort_entries m with
    | (oldestKey, _) :: _ => set_cache (map_delete oldestKey m) cl
    | [] => set_cache m cl
    end
  else set_cache m cl.

Definition clearCache (cl : Client) : Client := set_cache [] cl.

Definition isConnected (cl : Client) : bool :=
  match state cl with
  | CONNECTED => true
  | _ => false
  end.

(** *** Transport *)

(** The argument of [fetch]; [f_body] stands for the text
    [JSON.stringify(request)]. *)
Record FetchInit : Type := mkFetchInit {
  f_url : string;
  f_method : string;
  f_headers : list (string * string);
  f_body : JSON
}.

(** [response.json()]: a value, or a failure to parse. *)
Inductive ResponseBody : Type :=
| BodyJson (data : JSON)
| BodyNotJson (message : string).

(** What a call of [fetch] comes to: aborted by the timeout, rejected for
    another reason, or answered. *)
Inductive FetchResult : Type :=
| FetchAborted
| FetchFailed (message : string)
| FetchResponds (status : Z) (statusText : string) (body : ResponseBody).

(** The network: the outcome of the [k]-th call of [fetch]. *)
Definition Network : Type := nat -> FetchInit -> FetchResult.

(** What goes on outside the client: how many calls of [fetch] were made
    and the pauses taken between attempts. *)
Record World : Type := mkWorld {
  fetches : nat;
  sleeps : list Z
}.

Definition given (v : option string) : bool :=
  match v with
  | Some s => negb (String.eqb s EmptyString)
  | None => false
  end.

Definition auth_headers (c : MCPClientConfig) : list (string * string) :=
  if String.eqb (authType c) "api_key" && given (apiKey c)
  then [("X-API-Key", default EmptyString (apiKey c))]
  else if String.eqb (authType c) "bearer" && given (token c)
  then [("Authorization", "Bearer " ++ default EmptyString (token c))]
  else if String.eqb (authType c) "jwt" && given (token c)
  then [("Authorization", "JWT " ++ default EmptyString (token c))]
  else [].

Definition validateResponse (data : JSON) : Exc JSON :=
  match data with
  | JObj _ | JArr _ =>
      if negb (is_str (prop "jsonrpc" data) "2.0")
      then Throw (ThrowError "Invalid JSON-RPC version")
      else Ok data
  | _ => Throw (ThrowError "Invalid response format")
  end.

Definition makeRequest (net : Network) (request : JSON) (cl : Client) (w : World)
    : Exc JSON * World :=
  let c := config cl in
  let init :=
    {| f_url := serverUrl c;
       f_method := "POST";
       f_headers := [("Content-Type", "application/json"); ("Accept", "application/json")]
                    ++ auth_headers c;
       f_body := request |} in
  let w' := {| fetches := S (fetches w); sleeps := sleeps w |} in
  match net (fetches w) init with
  | FetchAborted =>
      (Throw (ThrowError ("Request timeout after " ++ Number_toString (timeout c) ++ "ms")), w')
  | FetchFailed msg => (Throw (ThrowError msg), w')
  | FetchResponds st txt b =>
      if negb ((200 <=? st) && (st <=? 299))
      then (Throw (ThrowError ("HTTP " ++ Number_toString st ++ ": " ++ txt)), w')
      else
        match b with
        | BodyNotJson msg => (Throw (ThrowError msg), w')
        | BodyJson data => (validateResponse data, w')
        end
  end.

(** The [for] loop of [makeRequestWithRetry], [remaining] rounds before
    [attempt] exceeds [maxRetries]. *)
Fixpoint retry_loop (net : Network) (request : JSON) (cl : Client)
    (remaining : nat) (attempt : Z) (lastError : option Thrown) (w : World)
    : Exc JSON * World :=
  match remaining with
  | O =>
      (Throw (match lastError with
              | Some e => e
              | None => ThrowError "All retry attempts failed"
              end), w)
  | S remaining' =>
      let w :=
        if 0 <? attempt
        then {| fetches := fetches w;
                sleeps := (sleeps w ++ [retryDelay (config cl) * attempt])%list |}
        else w in
      match makeRequest net request cl w with
      | (Ok response, w') => (Ok response, w')
      | (Throw e, w') => retry_loop net request cl remaining' (attempt + 1) (Some e) w'
      end
  end.

Definition makeRequestWithRetry (net : Network) (request : JSON) (cl : Client)
    (w : World) : Exc JSON * World :=
  retry_loop net request cl (Z.to_nat (maxRetries (config cl) + 1)) 0 None w.

(** *** Operations *)

Definition rpc (meth id : string) (params : option JSON) : JSON :=
  JObj ([("jsonrpc", JStr "2.0"); ("method", JStr meth)]
        ++ match params with Some p => [("params", p)] | None => [] end
        ++ [("id", JStr id)]).

(** [response.result?.tools || []]. *)
Definition tools_or_empty (response : JSON) : JSON :=
  let tls :=
    match prop "result" response with
    | None | Some JNull => None
    | Some r => prop "tools" r
    end in
  if truthy tls then default (JArr []) tls else JArr [].

(** [loadTools]; [id] is the generated request id. It never throws. *)
Definition loadTools (net : Network) (id : string) (cl : Client) (w : World)
    : Client * World :=
  match makeRequestWithRetry net (rpc "tools/list" id None) cl w with
  | (Ok response, w') =>
      if truthy (prop "error" response) then (cl, w')
      else (set_tools (tools_or_empty response) cl, w')
  | (Throw _, w') => (cl, w')
  end.

(** [connect]; [id1] and [id2] are the ids generated for the status request
    and for the request of [loadTools]. *)
Definition connect (net : Network) (id1 id2 : string) (cl : Client) (w : World)
    : bool * Client * World :=
  let cl := set_state CONNECTING cl in
  match makeRequest net (rpc "server/status" id1 None) cl w with
  | (Ok response, w') =>
      if truthy (prop "error" response) then (false, set_state FAILED cl, w')
      else
        let cl := set_state CONNECTED cl in
        let '(cl, w'') := loadTools net id2 cl w' in
        (true, cl, w'')
  | (Throw _, w') => (false, set_state FAILED cl, w')
  end.

(** [callTool]; [now1] and [now2] are the readings of [Date.now()] by
    [getCachedResult] and [cacheResult], [id] the generated request id. *)
Definition callTool (net : Network) (now1 : Z) (id : string) (now2 : Z)
    (toolName : string) (parameters : list (string * JSON)) (useCache : bool)
    (cl : Client) (w : World) : Exc (option JSON) * Client * World :=
  if negb (isConnected cl)
  then (Throw (ThrowError "MCP client not connected. Call connect() first."), cl, w)
  else
    let caching := useCache && enableCaching (config cl) in
    let cacheKey := getCacheKey toolName parameters in
    let '(hit, cl) :=
      if caching then getCachedResult now1 cacheKey cl else (None, cl) in
    if caching && truthy hit then (Ok hit, cl, w)
    else
      let request :=
        rpc "tools/call" id
          (Some (JObj [("name", JStr toolName); ("arguments", JObj parameters)])) in
      match makeRequestWithRetry net request cl w with
      | (Throw e, w') => (Throw e, cl, w')
      | (Ok response, w') =>
          match prop "error" response with
          | Some err =>
              if truthy (Some err)
              then (Throw (match template (prop "message" err) with
                           | Ok printed => ThrowError ("Tool call failed: " ++ printed)
                           | Throw e => e
                           end), cl, w')
              else
                let r := prop "result" response in
                (Ok r, if caching then cacheResult now2 cacheKey r cl else cl, w')
          | None =>
              let r := prop "result" response in
              (Ok r, if caching then cacheResult now2 cacheKey r cl else cl, w')
          end
      end.

(** [x.length > 0] for a value [x]: the number of elements of an array, the
    length of a string, the member [length] of an object; a number or a
    boolean has no such member and [undefined > 0] is false. A member
    [length] that is a number or a boolean is compared as it is ([true]
    counts as 1, [null] as 0). The conversion of a string, an array or an
    object to a number is not modelled: such a member is read as not above
    0. [availableTools] is declared [MCPTool[]] and holds an array after
    every answer of the server modelled here. *)
Definition nonempty (x : JSON) : bool :=
  match x with
  | JArr items => (0 <? length items)%nat
  | JStr s => (0 <? String.length s)%nat
  | JObj fields =>
      match assoc "length" fields with
      | Some (JNum n) => 0 <? n
      | Some (JBool b) => b
      | _ => false
      end
  | _ => false
  end.

Definition listTools (net : Network) (id : string) (cl : Client) (w : World)
    : JSON * Client * World :=
  if nonempty (availableTools cl) then (availableTools cl, cl, w)
  else
    let '(cl, w') := loadTools net id cl w in
    (availableTools cl, cl, w').

Definition getServerStatus (net : Network) (id : string) (cl : Client) (w : World)
    : Exc (option JSON) * World :=
  match makeRequestWithRetry net (rpc "server/status" id None) cl w with
  | (Throw e, w') => (Throw e, w')
  | (Ok response, w') =>
      match prop "error" response with
      | Some err =>
          if truthy (Some err)
          then (Throw (match template (prop "message" err) with
                       | Ok printed => ThrowError ("Status check failed: " ++ printed)
                       | Throw e => e
                       end), w')
          else (Ok (prop "result" response), w')
      | None => (Ok (prop "result" response), w')
      end
  end.

(** [createVercelMCPClient(serverUrl, options)]. *)
Definition createVercelMCPClient (net : Network) (id1 id2 : string)
    (o : MCPClientOptions) (w : World) : Exc Client * World :=
  let '(connected, cl, w') := connect net id1 id2 (new o) w in
  if negb connected then (Throw (ThrowError "Failed to connect to MCP server"), w')
  else (Ok cl, w').

(** *** The client in front of the unified server *)

Definition lower_char (c : ascii) : ascii :=
  let n := Ascii.nat_of_ascii c in
  if ((65 <=? n) && (n <=? 90))%nat then Ascii.ascii_of_nat (n + 32) else c.

Fixpoint lower (s : string) : string :=
  match s with
  | EmptyString => EmptyString
  | String c rest => String (lower_char c) (lower rest)
  end.

(** The body written by [res.json(r)], as the client parses it: members
    that are [undefined] are not written. *)
Definition response_json (r : MCPResponse) : JSON :=
  JObj ([("jsonrpc", JStr (jsonrpc r))]
        ++ match resp_id r with Some i => [("id", i)] | None => [] end
        ++ match result r with Some x => [("result", x)] | None => [] end
        ++ match error r with
           | Some e =>
               [("error",
                 JObj ([("code", JNum (code e)); ("message", JStr (message e))]
                       ++ match data e with Some d => [("data", d)] | None => [] end))]
           | None => []
           end).

(** The reason phrases of the statuses the server uses. *)
Definition reason_phrase (st : Z) : string :=
  if st =? 200 then "OK"
  else if st =? 400 then "Bad Request"
  else if st =? 401 then "Unauthorized"
  else if st =? 405 then "Method Not Allowed"
  else if st =? 500 then "Internal Server Error"
  else EmptyString.

(** The request as it reaches the serverless function: header names in
    lower case, the body parsed. *)
Definition incoming (init : FetchInit) : VercelRequest :=
  {| method := f_method init;
     headers := list_to_map (List.map (fun kv => (lower (fst kv), snd kv)) (f_headers init));
     body := BodyValue (Some (f_body init)) |}.

(** A network on which every [fetch] is answered by [srv]. *)
Definition served_by (srv : UnifiedMCPServer) : Network :=
  fun _ init =>
    let out := handleRequest srv (incoming init) newResponse in
    FetchResponds (statusCode out) (reason_phrase (statusCode out))
      (match payload out with
       | Json r => BodyJson (response_json r)
       | _ => BodyNotJson "Unexpected end of JSON input"
       end).

(** *** Sample clients and networks *)

Definition sample_options : MCPClientOptions :=
  {| o_serverUrl := "https://example.vercel.app/api/server";
     o_authType := None; o_apiKey := Some "test-api-key-123456789"; o_token := None;
     o_timeout := None; o_maxRetries := None; o_retryDelay := None;
     o_enableCaching := None; o_cacheTtl := None |}.

Definition bearer_options : MCPClientOptions :=
  {| o_serverUrl := "https://example.vercel.app/api/server";
     o_authType := Some "bearer"; o_apiKey := None;
     o_token := Some "test-api-key-123456789";
     o_timeout := None; o_maxRetries := None; o_retryDelay := None;
     o_enableCaching := None; o_cacheTtl := None |}.

Definition no_retry_options : MCPClientOptions :=
  {| o_serverUrl := "https://example.vercel.app/api/server";
     o_authType := None; o_apiKey := None; o_token := None;
     o_timeout := None; o_maxRetries := Some (-1); o_retryDelay := None;
     o_enableCaching := None; o_cacheTtl := None |}.

Definition world0 : World := {| fetches := 0; sleeps := [] |}.

Definition network_down : Network := fun _ _ => FetchFailed "fetch failed".

Definition script_response : JSON :=
  JObj [("jsonrpc", JStr "2.0"); ("id", JStr "req_1");
        ("result", JObj [("script", JStr "Generated script"); ("word_count", JNum 2)])].

(** Two failed calls, then an answer. *)
Definition network_recovering : Network :=
  fun k _ =>
    if (k <? 2)%nat then FetchFailed "fetch failed"
    else FetchResponds 200 "OK" (BodyJson script_response).

Definition network_up : Network :=
  fun _ _ => FetchResponds 200 "OK" (BodyJson script_response).

Definition old_entry : CacheEntry :=
  {| cached := Some (JStr "stale"); timestamp := 1000 |}.

End VercelMCPClient.

(** The value of [c0 * 31^(n-1) + ... + c(n-1)], by Horner's rule. *)
Definition polynomial31 (codes : list Z) : Z :=
  fold_left (fun acc c => acc * 31 + c) codes 0.

(** The outcome of [makeRequest] when it makes the [k]-th call of [fetch]. *)
Definition attempt_outcome (net : VercelMCPClient.Network) (request : JSON)
    (cl : VercelMCPClient.Client) (k : nat) : Exc JSON :=
  fst (VercelMCPClient.makeRequest net request cl
         {| VercelMCPClient.fetches := k; VercelMCPClient.sleeps := [] |}).

(** The pause taken before attempt number [attempt]. *)
Definition pause_before (cl : VercelMCPClient.Client) (attempt : Z) : list Z :=
  if 0 <? attempt
  then [VercelMCPClient.retryDelay (VercelMCPClient.config cl) * attempt]
  else [].

(** Reading base 36 back: the value of a digit, of a string of digits, and
    of an optionally signed string of digits. *)
Definition digit_value (c : ascii) : Z :=
  let n := Z.of_nat (Ascii.nat_of_ascii c) in
  if n <? 58 then n - 48 else n - 87.

Definition value_from (a : Z) (s : string) : Z :=
  fold_left (fun acc c => acc * 36 + digit_value c) (String.list_ascii_of_string s) a.

Definition parse36 (s : string) : Z :=
  match s with
  | String c rest =>
      if Ascii.eqb c "-"%char then - value_from 0 rest else value_from 0 s
  | EmptyString => 0
  end.



Definition script_call_params : JSON :=
  JObj [("name", JStr "generate_video_script");
        ("arguments", JObj [("video_subject", JStr "Ocean life")])].

Definition script_call_envelope : JSON :=
  envelope "2.0" "2" "tools/call" (Some script_call_params).

Definition script_call_request : VercelRequest :=
  post (Some ("Bearer " ++ testApiKey)) script_call_envelope.

Definition paramless_call_envelope : JSON :=
  envelope "2.0" "3" "tools/call" None.

Definition paramless_call_request : VercelRequest :=
  post (Some ("Bearer " ++ testApiKey)) paramless_call_envelope.

Definition broken_body_request : VercelRequest :=
  {| method := "POST";
     headers := {["authorization" := "Bearer " ++ testApiKey]};
     body := BodyThrows (ThrowError "Invalid JSON") |}.

Definition jwt_shaped_request : VercelRequest :=
  post (Some "Bearer eyJ") list_tools_envelope.





(** A call of a tool whose handler fails. *)
Definition query_call_params : JSON :=
  JObj [("name", JStr "supabase_query");
        ("arguments", JObj [("query", JStr "select 1")])].

Definition query_call_envelope : JSON :=
  envelope "2.0" "4" "tools/call" (Some query_call_params).

Definition query_call_request : VercelRequest :=
  post (Some ("Bearer " ++ testApiKey)) query_call_envelope.

(** A call whose params are an array. *)
Definition array_params_call_envelope : JSON :=
  envelope "2.0" "5" "tools/call" (Some (JArr [JStr "supabase_query"])).

Definition array_params_call_request : VercelRequest :=
  post (Some ("Bearer " ++ testApiKey)) array_params_call_envelope.

(** A server on which every handler fails. *)
Definition failing_server : UnifiedMCPServer :=
  {| registry :=
       registerAll [(supabase_query, handler_failing);
                    (generate_video_script, handler_failing)] emptyRegistry |}.

(** A value without the members that a property list [K] leaves out: at
    every depth an object keeps only the members named in [K]. *)
Fixpoint prune (K : list string) (v : JSON) : JSON :=
  match v with
  | JArr items => JArr (List.map (prune K) items)
  | JObj fields =>
      JObj (List.filter (fun kv => existsb (String.eqb (fst kv)) K)
              (List.map (fun kv => (fst kv, prune K (snd kv))) fields))
  | _ => v
  end.

(** Two parameter objects that differ in nested members only. *)
Definition nested_parameters : list (string * JSON) :=
  [("b", JNum 3); ("a", JObj [("c", JNum 2); ("b", JNum 1)])].

Definition nested_parameters_other : list (string * JSON) :=
  [("b", JNum 3); ("a", JObj [("b", JNum 1); ("d", JStr "x"); ("c", JNull)])].

(** * Properties *)

(** ** Facts about [JSMap] *)

Section JSMapFacts.
Context {V : Type}.
Implicit Types (m : JSMap V) (k : string) (v : V).

Lemma map_get_set_eq k v m : map_get k (map_set k v m) = Some v.
Proof.
  induction m as [|[k' v'] rest IH]; simpl.
  - unfold map_get; simpl. now rewrite String.eqb_refl.
  - destruct (String.eqb_spec k k') as [->|Hne].
    + unfold map_get; simpl. now rewrite String.eqb_refl.
    + unfold map_get in *; simpl.
      destruct (String.eqb_spec k k'); [contradiction | exact IH].
Qed.

Lemma map_get_set_ne k k' v m :
  k <> k' -> map_get k' (map_set k v m) = map_get k' m.
Proof.
  intros Hne. unfold map_get.
  induction m as [|[k0 v0] rest IH]; simpl.
  - destruct (String.eqb_spec k' k); [congruence | reflexivity].
  - destruct (String.eqb_spec k k0) as [->|Hk]; simpl.
    + destruct (String.eqb_spec k' k0); [congruence | reflexivity].
    + destruct (String.eqb_spec k' k0); [reflexivity | exact IH].
Qed.

Lemma map_keys_set k v m :
  map_keys (map_set k v m) =
  if existsb (String.eqb k) (map_keys m) then map_keys m else (map_keys m ++ [k])%list.
Proof.
  induction m as [|[k' v'] rest IH]; simpl; [reflexivity|].
  destruct (String.eqb_spec k k') as [->|Hne]; simpl; [reflexivity|].
  unfold map_keys in *. rewrite IH.
  now destruct (existsb (String.eqb k) (List.map fst rest)).
Qed.

Lemma existsb_eqb_elem k (ks : list string) :
  existsb (String.eqb k) ks = true <-> k ∈ ks.
Proof.
  rewrite existsb_exists. split.
  - intros (x & Hx & He). apply String.eqb_eq in He. subst x.
    now apply list_elem_of_In.
  - intros H. exists k. split; [now apply list_elem_of_In | apply String.eqb_refl].
Qed.

Lemma map_keys_set_elem k k' v m :
  k' ∈ map_keys (map_set k v m) <-> k' = k \/ k' ∈ map_keys m.
Proof.
  rewrite map_keys_set.
  destruct (existsb (String.eqb k) (map_keys m)) eqn:E.
  - apply existsb_eqb_elem in E. split; [tauto | intros [->|H]; assumption].
  - rewrite elem_of_app, list_elem_of_singleton. tauto.
Qed.

Lemma map_keys_set_NoDup k v m :
  NoDup (map_keys m) -> NoDup (map_keys (map_set k v m)).
Proof.
  intros Hnd. rewrite map_keys_set.
  destruct (existsb (String.eqb k) (map_keys m)) eqn:E; [exact Hnd|].
  apply NoDup_app; split; [exact Hnd | split; [|apply NoDup_singleton]].
  intros x Hx Hin. apply list_elem_of_singleton in Hin. subst x.
  apply existsb_eqb_elem in Hx. congruence.
Qed.

Lemma map_get_elem k v m : map_get k m = Some v -> (k, v) ∈ m.
Proof.
  unfold map_get. induction m as [|[k' v'] rest IH]; simpl; [discriminate|].
  destruct (String.eqb_spec k k') as [->|Hne].
  - intros [= ->]. left.
  - intros H. right. now apply IH.
Qed.

Lemma map_set_elem k v k' v' m :
  (k', v') ∈ map_set k v m -> (k' = k /\ v' = v) \/ (k', v') ∈ m.
Proof.
  induction m as [|[k0 v0] rest IH]; simpl.
  - intros H. apply list_elem_of_singleton in H. injection H as -> ->. now left.
  - destruct (String.eqb_spec k k0) as [->|Hne]; rewrite !elem_of_cons.
    + intros [[= -> ->]|H]; [now left | right; now right].
    + intros [H|H]; [right; now left|].
      destruct (IH H) as [?|?]; [now left | right; now right].
Qed.

Lemma map_get_None_keys k m : map_get k m = None <-> k ∉ map_keys m.
Proof.
  unfold map_get. induction m as [|[k' v'] rest IH]; simpl.
  - split; [intros _; apply not_elem_of_nil | reflexivity].
  - rewrite not_elem_of_cons.
    destruct (String.eqb_spec k k') as [->|Hne].
    + split; [discriminate | intros [H _]; congruence].
    + rewrite IH. tauto.
Qed.

End JSMapFacts.

(** ** The registry *)

Lemma emptyRegistry_ok : registry_ok emptyRegistry.
Proof.
  split; simpl.
  - apply NoDup_nil_2.
  - intros k t H. now apply elem_of_nil in H.
  - reflexivity.
Qed.

Lemma registerTool_ok tool handler reg :
  registry_ok reg -> registry_ok (registerTool tool handler reg).
Proof.
  intros [Hnd Hnamed Hkeys]. split; simpl.
  - now apply map_keys_set_NoDup.
  - intros k t H. apply map_set_elem in H as [[-> ->]|H]; [reflexivity|].
    now apply Hnamed.
  - rewrite !map_keys_set, Hkeys. reflexivity.
Qed.

Lemma registerAll_snoc calls call reg :
  registerAll (calls ++ [call]) reg =
  registerTool (fst call) (snd call) (registerAll calls reg).
Proof. unfold registerAll. now rewrite fold_left_app. Qed.

Lemma registerAll_ok calls reg :
  registry_ok reg -> registry_ok (registerAll calls reg).
Proof.
  intros Hok. induction calls as [|call calls IH] using rev_ind; [exact Hok|].
  rewrite registerAll_snoc. now apply registerTool_ok.
Qed.

Lemma last_registration_snoc nm calls call :
  last_registration nm (calls ++ [call]) =
  if String.eqb (name (fst call)) nm then Some call else last_registration nm calls.
Proof. unfold last_registration. now rewrite rev_unit. Qed.

Lemma registerAll_getTool nm calls reg :
  getTool nm (registerAll calls reg) =
  match last_registration nm calls with
  | Some call => Some (fst call)
  | None => getTool nm reg
  end.
Proof.
  induction calls as [|call calls IH] using rev_ind; [reflexivity|].
  rewrite registerAll_snoc, last_registration_snoc. unfold getTool, registerTool; simpl.
  destruct (String.eqb_spec (name (fst call)) nm) as [<-|Hne].
  - apply map_get_set_eq.
  - rewrite map_get_set_ne by exact Hne. exact IH.
Qed.

Lemma registerAll_handler nm calls reg :
  map_get nm (handlers (registerAll calls reg)) =
  match last_registration nm calls with
  | Some call => Some (snd call)
  | None => map_get nm (handlers reg)
  end.
Proof.
  induction calls as [|call calls IH] using rev_ind; [reflexivity|].
  rewrite registerAll_snoc, last_registration_snoc. unfold registerTool; simpl.
  destruct (String.eqb_spec (name (fst call)) nm) as [<-|Hne].
  - apply map_get_set_eq.
  - rewrite map_get_set_ne by exact Hne. exact IH.
Qed.

Lemma registerAll_keys nm calls reg :
  nm ∈ map_keys (tools (registerAll calls reg)) <->
  (exists call, call ∈ calls /\ name (fst call) = nm) \/ nm ∈ map_keys (tools reg).
Proof.
  induction calls as [|call calls IH] using rev_ind.
  - simpl. split; [now right | intros [(c & Hc & _)|H]; [|exact H]].
    now apply elem_of_nil in Hc.
  - rewrite registerAll_snoc. unfold registerTool at 1; simpl.
    rewrite map_keys_set_elem, IH. split.
    + intros [->|[(c & Hc & Hn)|H]].
      * left. exists call. split; [|reflexivity].
        apply elem_of_app. right. apply list_elem_of_singleton. reflexivity.
      * left. exists c. split; [|exact Hn]. apply elem_of_app. now left.
      * now right.
    + intros [(c & Hc & Hn)|H]; [|right; now right].
      apply elem_of_app in Hc as [Hc|Hc].
      * right. left. now exists c.
      * apply list_elem_of_singleton in Hc. subst c. now left.
Qed.

Lemma names_are_keys reg :
  registry_ok reg -> List.map name (getAllTools reg) = map_keys (tools reg).
Proof.
  intros [_ Hnamed _]. unfold getAllTools, map_values, map_keys.
  induction (tools reg) as [|[k t] rest IH]; simpl; [reflexivity|].
  f_equal.
  - apply Hnamed. left.
  - apply IH. intros k' t' H. apply Hnamed. now right.
Qed.

Lemma no_descriptor_for_absent_key (m : JSMap MCPTool) nm :
  (forall k t, (k, t) ∈ m -> name t = k) ->
  nm ∉ map_keys m ->
  List.filter (fun d => String.eqb (name d) nm) (map_values m) = [].
Proof.
  induction m as [|[k d] rest IH]; intros Hnamed Hk; simpl; [reflexivity|].
  simpl in Hk. apply not_elem_of_cons in Hk as [Hne Hk].
  rewrite (Hnamed k d) by left.
  destruct (String.eqb_spec k nm); [congruence|].
  apply IH; [|exact Hk]. intros k0 t0 H. apply Hnamed. now right.
Qed.

Lemma one_descriptor_per_key (m : JSMap MCPTool) nm t :
  NoDup (map_keys m) ->
  (forall k d, (k, d) ∈ m -> name d = k) ->
  map_get nm m = Some t ->
  List.filter (fun d => String.eqb (name d) nm) (map_values m) = [t].
Proof.
  induction m as [|[k d] rest IH]; intros Hnd Hnamed; [discriminate|].
  simpl in Hnd. apply NoDup_cons in Hnd as [Hk Hnd].
  assert (Hrest : forall k0 t0, (k0, t0) ∈ rest -> name t0 = k0)
    by (intros k0 t0 H; apply Hnamed; now right).
  unfold map_get; simpl. rewrite (Hnamed k d) by left.
  destruct (String.eqb_spec nm k) as [->|Hne].
  - intros [= ->]. rewrite String.eqb_refl. f_equal.
    now apply no_descriptor_for_absent_key.
  - destruct (String.eqb_spec k nm); [congruence|].
    intros H. now apply IH.
Qed.

Lemma one_descriptor_per_name reg nm t :
  registry_ok reg -> getTool nm reg = Some t ->
  List.filter (fun d => String.eqb (name d) nm) (getAllTools reg) = [t].
Proof.
  intros [Hnd Hnamed _] Hget. now apply one_descriptor_per_key.
Qed.

(** ** Grouping by category *)

Lemma fold_set_add_elem (xs acc : list string) x :
  x ∈ fold_left set_add xs acc <-> x ∈ acc \/ x ∈ xs.
Proof.
  revert acc. induction xs as [|y xs IH]; intros acc; simpl.
  - split; [now left | intros [H|H]; [exact H | now apply elem_of_nil in H]].
  - rewrite IH, elem_of_cons. unfold set_add.
    destruct (existsb (String.eqb y) acc) eqn:E.
    + apply existsb_eqb_elem in E. split; [tauto|].
      intros [H|[->|H]]; auto.
    + rewrite elem_of_app, list_elem_of_singleton. tauto.
Qed.

Lemma fold_set_add_NoDup (xs acc : list string) :
  NoDup acc -> NoDup (fold_left set_add xs acc).
Proof.
  revert acc. induction xs as [|y xs IH]; intros acc Hnd; simpl; [exact Hnd|].
  apply IH. unfold set_add.
  destruct (existsb (String.eqb y) acc) eqn:E; [exact Hnd|].
  apply NoDup_app; split; [exact Hnd | split; [|apply NoDup_singleton]].
  intros x Hx Hy. apply list_elem_of_singleton in Hy. subst x.
  apply existsb_eqb_elem in Hx. congruence.
Qed.

Lemma Set_from_elem xs x : x ∈ Set_from xs <-> x ∈ xs.
Proof.
  unfold Set_from. rewrite fold_set_add_elem. split; [|now right].
  intros [H|H]; [now apply elem_of_nil in H | exact H].
Qed.

Lemma Set_from_NoDup xs : NoDup (Set_from xs).
Proof. apply fold_set_add_NoDup, NoDup_nil_2. Qed.

Section Counting.
Context {A : Type}.

Lemma filter_orb_length (p q : A -> bool) (l : list A) :
  (forall x, p x = true -> q x = false) ->
  length (List.filter (fun x => p x || q x) l) =
  (length (List.filter p l) + length (List.filter q l))%nat.
Proof.
  intros Hdisj. induction l as [|x l IH]; simpl; [reflexivity|].
  destruct (p x) eqn:Hp; simpl.
  - rewrite (Hdisj x Hp). simpl. now rewrite IH.
  - destruct (q x); simpl; rewrite IH; lia.
Qed.

Lemma filter_all (p : A -> bool) (l : list A) :
  (forall x, x ∈ l -> p x = true) -> List.filter p l = l.
Proof.
  induction l as [|x l IH]; intros H; simpl; [reflexivity|].
  rewrite (H x) by left. f_equal. apply IH. intros y Hy. apply H. now right.
Qed.

(** Counting the elements of each class of a duplicate-free list of
    classes counts every element that falls in one of the classes. *)
Lemma class_counts_sum (cls : A -> string) (cats : list string) (l : list A) :
  NoDup cats ->
  sum_list (List.map
              (fun c => length (List.filter (fun x => String.eqb (cls x) c) l)) cats) =
  length (List.filter (fun x => existsb (String.eqb (cls x)) cats) l).
Proof.
  induction cats as [|c cats IH]; intros Hnd; simpl.
  - induction l as [|x l IHl]; simpl; [reflexivity | exact IHl].
  - apply NoDup_cons in Hnd as [Hc Hnd].
    rewrite IH by exact Hnd. symmetry. apply filter_orb_length.
    intros x Hx. apply String.eqb_eq in Hx. subst c.
    destruct (existsb (String.eqb (cls x)) cats) eqn:E; [|reflexivity].
    apply existsb_eqb_elem in E. contradiction.
Qed.

End Counting.

Lemma category_counts_fst reg :
  List.map fst (category_counts reg) = Set_from (List.map category (getAllTools reg)).
Proof.
  unfold category_counts. rewrite List.map_map. simpl. apply List.map_id.
Qed.

Lemma category_counts_snd reg :
  List.map snd (category_counts reg) =
  List.map (fun c => length (List.filter (fun t => String.eqb (category t) c)
                                         (getAllTools reg)))
           (Set_from (List.map category (getAllTools reg))).
Proof. unfold category_counts. now rewrite List.map_map. Qed.

Lemma category_counts_total reg :
  sum_list (List.map snd (category_counts reg)) = length (getAllTools reg).
Proof.
  rewrite category_counts_snd.
  rewrite (class_counts_sum category) by apply Set_from_NoDup.
  f_equal. apply filter_all. intros t Ht.
  apply existsb_eqb_elem, Set_from_elem, list_elem_of_In, in_map, list_elem_of_In, Ht.
Qed.

Lemma last_registration_some nm calls call :
  call ∈ calls -> name (fst call) = nm ->
  exists t h, last_registration nm calls = Some (t, h) /\ name t = nm.
Proof.
  intros Hin Hn. unfold last_registration.
  destruct (List.find _ (rev calls)) as [[t h]|] eqn:E.
  - exists t, h. split; [reflexivity|].
    apply List.find_some in E as [_ E]. now apply String.eqb_eq in E.
  - exfalso. assert (Hf := List.find_none _ _ E call). simpl in Hf.
    rewrite (proj2 (String.eqb_eq _ _) Hn) in Hf.
    enough (false = true) by discriminate. symmetry. apply Hf.
    apply in_rev. rewrite rev_involutive. now apply list_elem_of_In.
Qed.

(** C7. After any sequence of [registerTool] calls the enumeration lists no
    name twice, lists exactly the registered names, and for each registered
    name holds exactly one descriptor: the one of the last registration
    under that name, bound to the handler of that same registration. The
    [tools/list] result is built from that enumeration. *)
Theorem registerTool_last_write_wins (calls : list (MCPTool * Handler)) :
  let reg := registerAll calls emptyRegistry in
  NoDup (List.map name (getAllTools reg))
  /\ (forall nm, nm ∈ List.map name (getAllTools reg) <->
                 exists call, call ∈ calls /\ name (fst call) = nm)
  /\ (forall nm call, call ∈ calls -> name (fst call) = nm ->
        exists t h,
          last_registration nm calls = Some (t, h)
          /\ getTool nm reg = Some t
          /\ map_get nm (handlers reg) = Some h
          /\ List.filter (fun d => String.eqb (name d) nm) (getAllTools reg) = [t])
  /\ handleListTools {| registry := reg |} =
       JObj [("tools", JArr (List.map tool_json (getAllTools reg)))].
Proof.
  intros reg.
  assert (Hok : registry_ok reg) by apply registerAll_ok, emptyRegistry_ok.
  repeat split.
  - rewrite names_are_keys by exact Hok. apply Hok.
  - rewrite names_are_keys by exact Hok. intros H.
    apply registerAll_keys in H as [H|H]; [exact H|].
    now apply elem_of_nil in H.
  - rewrite names_are_keys by exact Hok. intros H.
    apply registerAll_keys. now left.
  - intros nm call Hin Hn.
    destruct (last_registration_some nm calls call Hin Hn) as (t & h & Hlast & _).
    exists t, h.
    assert (Hget : getTool nm reg = Some t).
    { unfold reg. rewrite registerAll_getTool, Hlast. reflexivity. }
    repeat split; [exact Hlast | exact Hget | | now apply one_descriptor_per_name].
    unfold reg. rewrite registerAll_handler, Hlast. reflexivity.
Qed.

(** C8. The [server/capabilities] result groups the full tool list: [total]
    is the number of registered tools, the categories are the distinct
    [category] fields, each once, each [count] is the number of descriptors
    with exactly that category, and the counts add up to [total]. *)
Theorem capabilities_group_by_category (srv : UnifiedMCPServer) :
  let reg := registry srv in
  let caps := handleGetCapabilities srv in
  let cc := category_counts reg in
  (prop "tools" caps ≫= prop "total") = Some (JNum (Z.of_nat (length (tools reg))))
  /\ (prop "tools" caps ≫= prop "categories") =
       Some (JArr (List.map (fun c => JObj [("name", JStr (fst c));
                                            ("count", JNum (Z.of_nat (snd c)))]) cc))
  /\ NoDup (List.map fst cc)
  /\ (forall c, c ∈ List.map fst cc <-> exists t, t ∈ getAllTools reg /\ category t = c)
  /\ Forall (fun c => snd c =
                      length (List.filter (fun t => String.eqb (category t) (fst c))
                                          (getAllTools reg))) cc
  /\ sum_list (List.map snd cc) = length (tools reg).
Proof.
  cbv zeta.
  assert (Hlen : length (getAllTools (registry srv)) = length (tools (registry srv)))
    by apply List.length_map.
  split; [|split; [|split; [|split; [|split]]]].
  - unfold handleGetCapabilities. simpl. now rewrite Hlen.
  - reflexivity.
  - rewrite category_counts_fst. apply Set_from_NoDup.
  - intros c. rewrite category_counts_fst, Set_from_elem.
    rewrite list_elem_of_fmap. split.
    + intros (t & -> & Ht). now exists t.
    + intros (t & Ht & <-). now exists t.
  - unfold category_counts. apply Forall_forall. intros [c n] Hin.
    apply list_elem_of_fmap in Hin as (c' & [= -> ->] & _). reflexivity.
  - rewrite <- Hlen. apply category_counts_total.
Qed.

(** ** The request lifecycle *)

Lemma jsonrpc_member_truthy request s :
  is_str (prop "jsonrpc" request) s = true -> truthy (Some request) = true.
Proof. destruct request; simpl; try discriminate. reflexivity. Qed.

Lemma handleRequest_dispatched srv req res auth request :
  dispatched req auth request ->
  handleRequest srv req res =
  json (processRequest srv request {| ctx_auth := auth; ctx_req := req |})
       (status 200 (setCorsHeaders res)).
Proof.
  intros (Hm & Hauth & Hvalid & Hbody & Hrpc).
  unfold handleRequest, handleRequest_try, read_body.
  rewrite Hm, Hauth, Hvalid, Hbody. cbn [bindE String.eqb Ascii.eqb Bool.eqb negb].
  rewrite (jsonrpc_member_truthy _ _ Hrpc), Hrpc. reflexivity.
Qed.

Lemma handleRequest_other_method srv req res :
  method req <> "OPTIONS" -> method req <> "POST" ->
  handleRequest srv req res =
  json (createErrorResponse (Some (JStr "method_not_allowed")) (-32600)
          "Method not allowed" None)
       (status 405 (setCorsHeaders res)).
Proof.
  intros Ho Hp. unfold handleRequest, handleRequest_try.
  destruct (String.eqb_spec (method req) "OPTIONS"); [contradiction|].
  destruct (String.eqb_spec (method req) "POST"); [contradiction|].
  reflexivity.
Qed.

Lemma handleRequest_no_credential srv req res :
  method req = "POST" -> MCPAuthManager.extractAuthFromRequest req = None ->
  handleRequest srv req res =
  json (createErrorResponse (Some (JStr "auth_required")) (-32001)
          "Authentication required" None)
       (status 401 (setCorsHeaders res)).
Proof.
  intros Hm Hauth. unfold handleRequest, handleRequest_try.
  rewrite Hm, Hauth. reflexivity.
Qed.

Lemma handleRequest_bad_credential srv req res auth :
  method req = "POST" -> MCPAuthManager.extractAuthFromRequest req = Some auth ->
  isValid auth = false ->
  handleRequest srv req res =
  json (createErrorResponse (Some (JStr "auth_invalid")) (-32001)
          "Invalid credentials" None)
       (status 401 (setCorsHeaders res)).
Proof.
  intros Hm Hauth Hv. unfold handleRequest, handleRequest_try.
  rewrite Hm, Hauth, Hv. reflexivity.
Qed.

Lemma handleRequest_bad_envelope srv req res auth v :
  method req = "POST" -> MCPAuthManager.extractAuthFromRequest req = Some auth ->
  isValid auth = true -> body req = BodyValue v ->
  is_str (v ≫= prop "jsonrpc") "2.0" = false ->
  handleRequest srv req res =
  json (createErrorResponse (Some (JStr "invalid_request")) (-32600)
          "Invalid JSON-RPC request" None)
       (status 400 (setCorsHeaders res)).
Proof.
  intros Hm Hauth Hv Hbody Hrpc. unfold handleRequest, handleRequest_try, read_body.
  rewrite Hm, Hauth, Hv, Hbody. simpl.
  destruct v as [request|]; [|reflexivity].
  simpl in Hrpc. rewrite Hrpc, orb_true_r. reflexivity.
Qed.

Lemma handleRequest_body_throws srv req res auth e :
  method req = "POST" -> MCPAuthManager.extractAuthFromRequest req = Some auth ->
  isValid auth = true -> body req = BodyThrows e ->
  handleRequest srv req res =
  json (createErrorResponse (Some (JStr "internal_error")) (-32603)
          "Internal server error" None)
       (status 500 (setCorsHeaders res)).
Proof.
  intros Hm Hauth Hv Hbody. unfold handleRequest, handleRequest_try, read_body.
  rewrite Hm, Hauth, Hv, Hbody. reflexivity.
Qed.

Lemma substring_all (s : string) : String.substring 0 (String.length s) s = s.
Proof. induction s as [|a s IH]; simpl; [reflexivity | now rewrite IH]. Qed.

Lemma bearer_token (key : string) : substring_from 7 ("Bearer " ++ key) = key.
Proof. unfold substring_from. simpl. rewrite Nat.sub_0_r. apply substring_all. Qed.

Lemma bearer_prefix (key : string) : startsWith ("Bearer " ++ key) "Bearer " = true.
Proof. unfold startsWith. simpl. now destruct key. Qed.

Lemma extract_bearer_api_key req key :
  headers req !! "authorization" = Some ("Bearer " ++ key) ->
  startsWith key "eyJ" = false ->
  MCPAuthManager.extractAuthFromRequest req =
  Some {| type := "api_key"; credential := key |}.
Proof.
  intros Hh Hk. unfold MCPAuthManager.extractAuthFromRequest. rewrite Hh.
  rewrite bearer_prefix, bearer_token, Hk. reflexivity.
Qed.

Lemma validateApiKey_length apiKey :
  MCPAuthManager.validateApiKey apiKey = (10 <? String.length apiKey)%nat.
Proof.
  unfold MCPAuthManager.validateApiKey. destruct apiKey; reflexivity.
Qed.

Lemma is_str_true v s : is_str v s = true -> v = Some (JStr s).
Proof.
  destruct v as [[]|]; simpl; try discriminate.
  intros H. apply String.eqb_eq in H. now subst.
Qed.







Lemma createErrorResponse_exactly_one id c msg d :
  exactly_one (createErrorResponse id c msg d).
Proof. right. split; [reflexivity | eexists; reflexivity]. Qed.

Lemma processRequest_cases srv request context :
  (exists r, processRequest srv request context =
             {| jsonrpc := "2.0"; resp_id := prop "id" request;
                result := Some r; error := None |})
  \/ (exists c msg, processRequest srv request context =
                    createErrorResponse (prop "id" request) c msg None).
Proof.
  unfold processRequest.
  destruct (route srv request context) as [[early|r]|e] eqn:E.
  - right. unfold route in E.
    repeat match type of E with
           | (if ?b then _ else _) = _ => destruct b
           | bindE ?m _ = _ => destruct m; simpl in E
           end; try discriminate.
    injection E as <-. eauto.
  - left. eauto.
  - right. eauto.
Qed.

Lemma processRequest_id srv request context :
  resp_id (processRequest srv request context) = prop "id" request.
Proof.
  destruct (processRequest_cases srv request context) as [(r & ->)|(c & msg & ->)];
    reflexivity.
Qed.

Lemma processRequest_exactly_one srv request context :
  exactly_one (processRequest srv request context).
Proof.
  destruct (processRequest_cases srv request context) as [(r & ->)|(c & msg & ->)].
  - left. split; [eexists; reflexivity | reflexivity].
  - apply createErrorResponse_exactly_one.
Qed.

(** Every answer of [handleRequest] is one of: the preflight answer, an
    early rejection labelled with one of [early_labels], or the response of
    [processRequest] to a dispatched request. *)
Lemma handleRequest_cases srv req res :
  let out := handleRequest srv req res in
  (method req = "OPTIONS" /\ statusCode out = 200 /\ payload out = Ended)
  \/ (exists label c msg,
        label ∈ early_labels /\ statusCode out <> 200
        /\ payload out = Json (createErrorResponse (Some (JStr label)) c msg None))
  \/ (exists auth request,
        dispatched req auth request /\ statusCode out = 200
        /\ payload out =
             Json (processRequest srv request {| ctx_auth := auth; ctx_req := req |})).
Proof.
  cbv zeta. unfold early_labels.
  destruct (String.eqb_spec (method req) "OPTIONS") as [Ho|Ho].
  { left. unfold handleRequest. rewrite Ho. auto. }
  right.
  destruct (String.eqb_spec (method req) "POST") as [Hp|Hp].
  2:{ left. rewrite handleRequest_other_method by assumption.
      exists "method_not_allowed". do 2 eexists.
      split; [set_solver | split; [discriminate | reflexivity]]. }
  destruct (MCPAuthManager.extractAuthFromRequest req) as [auth|] eqn:Ha.
  2:{ left. rewrite handleRequest_no_credential by assumption.
      exists "auth_required". do 2 eexists.
      split; [set_solver | split; [discriminate | reflexivity]]. }
  destruct (isValid auth) eqn:Hv.
  2:{ left. rewrite (handleRequest_bad_credential _ _ _ auth) by assumption.
      exists "auth_invalid". do 2 eexists.
      split; [set_solver | split; [discriminate | reflexivity]]. }
  destruct (body req) as [e|v] eqn:Hb.
  { left. rewrite (handleRequest_body_throws _ _ _ auth e) by assumption.
    exists "internal_error". do 2 eexists.
    split; [set_solver | split; [discriminate | reflexivity]]. }
  destruct (is_str (v ≫= prop "jsonrpc") "2.0") eqn:Hr.
  - right. destruct v as [request|]; [|discriminate]. simpl in Hr.
    assert (Hd : dispatched req auth request) by (repeat split; assumption).
    exists auth, request. rewrite (handleRequest_dispatched _ _ _ auth request Hd).
    auto.
  - left. rewrite (handleRequest_bad_envelope _ _ _ auth v) by assumption.
    exists "invalid_request". do 2 eexists.
    split; [set_solver | split; [discriminate | reflexivity]].
Qed.

(** C6. Every response envelope written by [handleRequest] carries exactly
    one of [result] and [error], never both. *)
Theorem response_result_xor_error (srv : UnifiedMCPServer) (req : VercelRequest)
    (res : VercelResponse) (r : MCPResponse) :
  payload (handleRequest srv req res) = Json r -> exactly_one r.
Proof.
  intros Hr.
  destruct (handleRequest_cases srv req res)
    as [(_ & _ & H)|[(l & c & msg & _ & _ & H)|(auth & request & _ & _ & H)]];
    rewrite H in Hr; [discriminate | |]; injection Hr as <-.
  - apply createErrorResponse_exactly_one.
  - apply processRequest_exactly_one.
Qed.

(** C4, as the code has it. A request that reaches the dispatcher (POST,
    valid credential, body with [jsonrpc === "2.0"]) is answered, on success
    and error paths of every method alike, with the [id] of its envelope; an
    answer given before that (405, 401, 400, 500) carries a fixed label. *)
Theorem id_echoed_once_dispatched (srv : UnifiedMCPServer) (req : VercelRequest)
    (res : VercelResponse) (r : MCPResponse) :
  payload (handleRequest srv req res) = Json r ->
  (forall auth request, dispatched req auth request -> resp_id r = request_id req)
  /\ (statusCode (handleRequest srv req res) <> 200 ->
      exists label, label ∈ early_labels /\ resp_id r = Some (JStr label)).
Proof.
  intros Hr. split.
  - intros auth request Hd.
    rewrite (handleRequest_dispatched _ _ _ auth request Hd) in Hr.
    injection Hr as <-. rewrite processRequest_id.
    destruct Hd as (_ & _ & _ & Hb & _). unfold request_id. now rewrite Hb.
  - intros Hs.
    destruct (handleRequest_cases srv req res)
      as [(_ & H & _)|[(l & c & msg & Hl & _ & H)|(auth & request & _ & H & _)]];
      [contradiction | | contradiction].
    rewrite H in Hr. injection Hr as <-. now exists l.
Qed.

(** C9. An OPTIONS request is answered 200 with no body and with the CORS
    headers set, whatever its headers and body: neither the credential nor
    the envelope is looked at. *)
Theorem options_bypasses_checks (srv : UnifiedMCPServer) (req : VercelRequest)
    (res : VercelResponse) :
  method req = "OPTIONS" ->
  let out := handleRequest srv req res in
  statusCode out = 200
  /\ payload out = Ended
  /\ resHeaders out !! "Access-Control-Allow-Origin" = Some "*"
  /\ resHeaders out !! "Access-Control-Allow-Methods" = Some "GET, POST, OPTIONS"
  /\ resHeaders out !! "Access-Control-Allow-Headers" = Some "Content-Type, Authorization"
  /\ resHeaders out !! "Access-Control-Max-Age" = Some "86400"
  /\ out = end_ (status 200 (setCorsHeaders res)).
Proof.
  intros Hm. cbv zeta. unfold handleRequest. rewrite Hm. simpl.
  repeat split; by simplify_map_eq.
Qed.

(** ** Credentials *)

(** C3, on the code. The API-key check looks at the length only and its
    threshold is 10: a Bearer key of more than 10 characters (that is not
    JWT-shaped) is accepted, whatever the master key, so the request is not
    answered 401. *)
Theorem api_key_checked_by_length_only (srv : UnifiedMCPServer) (req : VercelRequest)
    (res : VercelResponse) (key : string) :
  method req = "POST" ->
  headers req !! "authorization" = Some ("Bearer " ++ key) ->
  startsWith key "eyJ" = false ->
  (10 < String.length key)%nat ->
  MCPAuthManager.extractAuthFromRequest req = Some {| type := "api_key"; credential := key |}
  /\ MCPAuthManager.validateApiKey key = true
  /\ statusCode (handleRequest srv req res) <> 401.
Proof.
  intros Hm Hh Hk Hlen.
  assert (Ha := extract_bearer_api_key req key Hh Hk).
  assert (Hv : MCPAuthManager.validateApiKey key = true).
  { rewrite validateApiKey_length. now apply Nat.ltb_lt. }
  assert (Hiv : isValid {| type := "api_key"; credential := key |} = true)
    by exact Hv.
  split; [exact Ha | split; [exact Hv|]].
  destruct (body req) as [e|v] eqn:Hb.
  - rewrite (handleRequest_body_throws _ _ _ _ e Hm Ha Hiv Hb). discriminate.
  - destruct (is_str (v ≫= prop "jsonrpc") "2.0") eqn:Hr.
    + destruct v as [request|]; [|discriminate]. simpl in Hr.
      assert (Hd : dispatched req {| type := "api_key"; credential := key |} request).
      { unfold dispatched. tauto. }
      rewrite (handleRequest_dispatched _ _ _ _ request Hd). discriminate.
    + rewrite (handleRequest_bad_envelope _ _ _ _ v Hm Ha Hiv Hb Hr). discriminate.
Qed.

(** C10. A POST whose Authorization header does not begin with "Bearer "
    yields no credential: it is answered 401 with code -32001 and
    "Authentication required", and no other header changes that. *)
Theorem non_bearer_header_is_no_credential (srv : UnifiedMCPServer)
    (req : VercelRequest) (res : VercelResponse) (h : string) :
  method req = "POST" ->
  headers req !! "authorization" = Some h ->
  startsWith h "Bearer " = false ->
  let out := handleRequest srv req res in
  MCPAuthManager.extractAuthFromRequest req = None
  /\ statusCode out = 401
  /\ payload out =
       Json {| jsonrpc := "2.0"; resp_id := Some (JStr "auth_required");
               result := None;
               error := Some {| code := -32001; message := "Authentication required";
                                data := None |} |}
  /\ (forall k v, k <> "authorization" ->
        handleRequest srv (with_header k v req) res = out).
Proof.
  intros Hm Hh Hp. cbv zeta.
  assert (Ha : forall r, method r = "POST" -> headers r !! "authorization" = Some h ->
                         MCPAuthManager.extractAuthFromRequest r = None).
  { intros r _ Hr. unfold MCPAuthManager.extractAuthFromRequest.
    rewrite Hr, Hp. now destruct (String.eqb h EmptyString). }
  rewrite (handleRequest_no_credential srv req res Hm (Ha req Hm Hh)).
  repeat split; [now apply Ha|].
  intros k v Hk. apply handleRequest_no_credential; [exact Hm|].
  apply Ha; [exact Hm|]. simpl. now rewrite lookup_insert_ne.
Qed.

(** ** Calling a tool *)

Lemma route_tools_call srv request context :
  is_str (prop "method" request) "tools/call" = true ->
  route srv request context =
  let! r := handleCallTool srv (prop "params" request) context in Ok (inr r).
Proof.
  intros H. apply is_str_true in H. unfold route. rewrite H. reflexivity.
Qed.

Lemma handleCallTool_unregistered srv params nm context :
  prop "name" params = Some nm ->
  truthy (Some nm) = true ->
  registered nm (registry srv) = false ->
  handleCallTool srv (Some params) context =
  let! printed := toString nm in
  Throw (ThrowError ("Tool '" ++ printed ++ "' not found")).
Proof.
  intros Hn Ht Hreg. unfold handleCallTool.
  destruct params; simpl in Hn; try discriminate.
  cbn [prop]. rewrite Hn, Ht. cbn [negb template].
  destruct nm; simpl in Hreg |- *; try reflexivity.
  destruct (getTool s (registry srv)); [discriminate | reflexivity].
Qed.

(** C1, on the code. A [tools/call] for a name that is not registered is
    answered 200 with an error and no [result]; the code of that error is
    -32603, not -32601, whatever the name. For a name that is a string the
    message is [Tool '<name>' not found]. *)
Theorem unknown_tool_is_internal_error (srv : UnifiedMCPServer) (req : VercelRequest)
    (res : VercelResponse) (auth : Auth) (request params nm : JSON) :
  dispatched req auth request ->
  is_str (prop "method" request) "tools/call" = true ->
  prop "params" request = Some params ->
  prop "name" params = Some nm ->
  truthy (Some nm) = true ->
  registered nm (registry srv) = false ->
  let out := handleRequest srv req res in
  statusCode out = 200
  /\ exists msg,
       payload out =
         Json {| jsonrpc := "2.0"; resp_id := prop "id" request; result := None;
                 error := Some {| code := -32603; message := msg; data := None |} |}
       /\ forall s, nm = JStr s -> msg = "Tool '" ++ s ++ "' not found".
Proof.
  intros Hd Hm Hp Hn Ht Hreg. cbv zeta.
  rewrite (handleRequest_dispatched _ _ _ auth request Hd).
  split; [reflexivity|]. simpl.
  unfold processRequest. rewrite route_tools_call by exact Hm.
  rewrite Hp, (handleCallTool_unregistered _ _ nm) by assumption.
  destruct (toString nm) as [printed|[msg|]] eqn:E; cbn [bindE];
    (eexists; split; [reflexivity|]); intros s ->; simpl in E; congruence.
Qed.

(** C2, on the code. A [tools/call] whose params carry no name (absent or
    empty) is answered 200 with the error "Tool name is required"; the code
    of that error is -32603, not -32602. *)
Theorem missing_tool_name_is_internal_error (srv : UnifiedMCPServer)
    (req : VercelRequest) (res : VercelResponse) (auth : Auth) (request : JSON)
    (fields : list (string * JSON)) :
  dispatched req auth request ->
  is_str (prop "method" request) "tools/call" = true ->
  prop "params" request = Some (JObj fields) ->
  assoc "name" fields = None \/ assoc "name" fields = Some (JStr EmptyString) ->
  let out := handleRequest srv req res in
  statusCode out = 200
  /\ payload out =
       Json {| jsonrpc := "2.0"; resp_id := prop "id" request; result := None;
               error := Some {| code := -32603;
                                message := "Tool name is required";
                                data := None |} |}.
Proof.
  intros Hd Hm Hp Hn. cbv zeta.
  rewrite (handleRequest_dispatched _ _ _ auth request Hd).
  split; [reflexivity|]. simpl. f_equal.
  unfold processRequest. rewrite route_tools_call by exact Hm.
  rewrite Hp. unfold handleCallTool. cbn [prop].
  destruct Hn as [Hn|Hn]; rewrite Hn; reflexivity.
Qed.

(** ** The theorems at the sample requests *)

Lemma unknown_tool_is_internal_error_witness :
  statusCode (handleRequest sample_server unknown_tool_request newResponse) = 200
  /\ payload (handleRequest sample_server unknown_tool_request newResponse) =
       Json {| jsonrpc := "2.0"; resp_id := Some (JStr "test-error-3"); result := None;
               error := Some {| code := -32603;
                                message := "Tool 'unknown_tool' not found";
                                data := None |} |}.
Proof.
  destruct (unknown_tool_is_internal_error sample_server unknown_tool_request newResponse
              testAuth unknown_tool_envelope unknown_tool_params (JStr "unknown_tool"))
    as (Hs & msg & Hp & Hmsg).
  - unfold dispatched. repeat apply conj; vm_compute; reflexivity.
  - reflexivity.
  - reflexivity.
  - reflexivity.
  - reflexivity.
  - vm_compute. reflexivity.
  - rewrite (Hmsg "unknown_tool" eq_refl) in Hp. exact (conj Hs Hp).
Defined.

Lemma missing_tool_name_is_internal_error_witness :
  statusCode (handleRequest sample_server nameless_call_request newResponse) = 200
  /\ payload (handleRequest sample_server nameless_call_request newResponse) =
       Json {| jsonrpc := "2.0"; resp_id := Some (JStr "call-1"); result := None;
               error := Some {| code := -32603;
                                message := "Tool name is required";
                                data := None |} |}.
Proof.
  apply (missing_tool_name_is_internal_error sample_server nameless_call_request
           newResponse testAuth nameless_call_envelope [("arguments", JObj [])]).
  - unfold dispatched. repeat apply conj; vm_compute; reflexivity.
  - reflexivity.
  - reflexivity.
  - left. reflexivity.
Defined.

Lemma api_key_checked_by_length_only_witness :
  MCPAuthManager.extractAuthFromRequest invalid_key_request =
    Some {| type := "api_key"; credential := invalidApiKey |}
  /\ MCPAuthManager.validateApiKey invalidApiKey = true
  /\ statusCode (handleRequest sample_server invalid_key_request newResponse) <> 401.
Proof.
  apply (api_key_checked_by_length_only sample_server invalid_key_request newResponse
           invalidApiKey).
  - reflexivity.
  - vm_compute. reflexivity.
  - reflexivity.
  - simpl. lia.
Defined.

(** C4 as stated does not hold: the integration test's envelope with
    [jsonrpc: '1.0'] and id "test-error-1" is answered with the id
    "invalid_request". *)
Lemma id_not_echoed_by_early_rejection :
  ~ (forall srv req res r,
       payload (handleRequest srv req res) = Json r -> resp_id r = request_id req).
Proof.
  intros H.
  specialize (H sample_server old_version_request newResponse
                (createErrorResponse (Some (JStr "invalid_request")) (-32600)
                   "Invalid JSON-RPC request" None) eq_refl).
  vm_compute in H. discriminate H.
Qed.

Lemma id_echoed_once_dispatched_witness :
  resp_id (processRequest sample_server unknown_tool_envelope
             {| ctx_auth := testAuth; ctx_req := unknown_tool_request |}) =
  request_id unknown_tool_request.
Proof.
  refine (proj1 (id_echoed_once_dispatched sample_server unknown_tool_request
                   newResponse _ _) testAuth unknown_tool_envelope _).
  - vm_compute. reflexivity.
  - unfold dispatched. repeat apply conj; vm_compute; reflexivity.
Defined.


Lemma response_result_xor_error_witness :
  exactly_one (createErrorResponse (Some (JStr "test-error-3")) (-32603)
                 "Tool 'unknown_tool' not found" None).
Proof.
  apply (response_result_xor_error sample_server unknown_tool_request newResponse).
  vm_compute. reflexivity.
Defined.

Lemma registerTool_last_write_wins_witness :
  exists t h,
    last_registration "supabase_query"
      (sample_calls ++ [(supabase_query_again, handler_ok)]) = Some (t, h)
    /\ getTool "supabase_query"
         (registerAll (sample_calls ++ [(supabase_query_again, handler_ok)])
            emptyRegistry) = Some t
    /\ map_get "supabase_query"
         (handlers (registerAll (sample_calls ++ [(supabase_query_again, handler_ok)])
                      emptyRegistry)) = Some h
    /\ List.filter (fun d => String.eqb (name d) "supabase_query")
         (getAllTools (registerAll (sample_calls ++ [(supabase_query_again, handler_ok)])
                         emptyRegistry)) = [t].
Proof.
  apply (proj1 (proj2 (proj2
           (registerTool_last_write_wins
              (sample_calls ++ [(supabase_query_again, handler_ok)]))))
           "supabase_query" (supabase_query, handler_failing)).
  - apply list_elem_of_here.
  - reflexivity.
Defined.

Lemma options_bypasses_checks_witness :
  statusCode (handleRequest sample_server options_request newResponse) = 200
  /\ payload (handleRequest sample_server options_request newResponse) = Ended.
Proof.
  destruct (options_bypasses_checks sample_server options_request newResponse eq_refl)
    as (Hs & Hp & _).
  exact (conj Hs Hp).
Defined.

Lemma non_bearer_header_is_no_credential_witness :
  MCPAuthManager.extractAuthFromRequest jwt_scheme_request = None
  /\ statusCode (handleRequest sample_server jwt_scheme_request newResponse) = 401
  /\ payload (handleRequest sample_server jwt_scheme_request newResponse) =
       Json {| jsonrpc := "2.0"; resp_id := Some (JStr "auth_required");
               result := None;
               error := Some {| code := -32001; message := "Authentication required";
                                data := None |} |}.
Proof.
  destruct (non_bearer_header_is_no_credential sample_server jwt_scheme_request
              newResponse "JWT eyJhbGciOiJIUzI1NiJ9.e30.abc")
    as (Ha & Hs & Hp & _).
  - reflexivity.
  - vm_compute. reflexivity.
  - reflexivity.
  - exact (conj Ha (conj Hs Hp)).
Defined.

(** The capabilities of the sample server: three tools in two categories. *)
Example capabilities_sample :
  category_counts (registry sample_server) = [("database", 2%nat); ("video_generation", 1%nat)].
Proof. reflexivity. Qed.

(** * More of the server *)

(** ** Routing *)



(** X2. A [tools/call] for a registered name runs the handler bound to that
    name on [params.arguments] and the context [{ auth, req }]: what the
    handler returns is the [result], verbatim; what it throws becomes error
    -32603 carrying the message of the [Error] ("Unknown error" for any
    other thrown value). The answer is 200 in both cases. *)
Theorem registered_tool_call (srv : UnifiedMCPServer) (req : VercelRequest)
    (res : VercelResponse) (auth : Auth) (request params : JSON) (nm : string)
    (t : MCPTool) (h : Handler) :
  dispatched req auth request ->
  is_str (prop "method" request) "tools/call" = true ->
  prop "params" request = Some params ->
  prop "name" params = Some (JStr nm) ->
  nm <> EmptyString ->
  getTool nm (registry srv) = Some t ->
  map_get nm (handlers (registry srv)) = Some h ->
  let out := handleRequest srv req res in
  statusCode out = 200
  /\ payload out =
       Json (match h (prop "arguments" params) {| ctx_auth := auth; ctx_req := req |} with
             | Ok r =>
                 {| jsonrpc := "2.0"; resp_id := prop "id" request;
                    result := Some r; error := None |}
             | Throw e =>
                 {| jsonrpc := "2.0"; resp_id := prop "id" request; result := None;
                    error := Some {| code := -32603;
                                     message := match e with
                                                | ThrowError msg => msg
                                                | ThrowOther => "Unknown error"
                                                end;
                                     data := None |} |}
             end).
Proof.
  intros Hd Hm Hp Hn Hne Ht Hh. cbv zeta.
  rewrite (handleRequest_dispatched _ _ _ auth request Hd).
  split; [reflexivity|]. simpl. f_equal.
  unfold processRequest. rewrite route_tools_call by exact Hm.
  rewrite Hp. unfold handleCallTool.
  destruct params; simpl in Hn; try discriminate.
  cbn [prop]. rewrite Hn. cbn [truthy].
  destruct (String.eqb_spec nm EmptyString) as [?|_]; [contradiction|].
  cbn [negb]. rewrite Ht. unfold executeTool. rewrite Hh.
  destruct (h (assoc "arguments" fields) _) as [r|[msg|]]; reflexivity.
Qed.

Lemma handleCallTool_non_object srv srv' params context :
  (forall fields, params <> Some (JObj fields)) ->
  handleCallTool srv params context = handleCallTool srv' params context
  /\ exists msg,
       handleCallTool srv params context = Throw (ThrowError msg)
       /\ forall p, params = Some p -> p <> JNull -> msg = "Tool name is required".
Proof.
  intros Hp. unfold handleCallTool.
  destruct params as [[| | | | |fields]|];
    try (split; [reflexivity|]; eexists; split; [reflexivity|];
         intros p [= <-] Hnull; try reflexivity; now contradiction Hnull).
  exfalso. now apply (Hp fields).
Qed.

(** X3. A [tools/call] whose params are not an object (absent, [null], a
    number, a string, an array) never reaches a handler: it is answered 200
    with an error of code -32603 and no result, and the answer is the same
    whatever the registry holds. For params that are present and not
    [null] the message is "Tool name is required". *)
Theorem non_object_params_rejected (srv : UnifiedMCPServer) (req : VercelRequest)
    (res : VercelResponse) (auth : Auth) (request : JSON) :
  dispatched req auth request ->
  is_str (prop "method" request) "tools/call" = true ->
  (forall fields, prop "params" request <> Some (JObj fields)) ->
  let out := handleRequest srv req res in
  statusCode out = 200
  /\ (exists msg,
        payload out =
          Json {| jsonrpc := "2.0"; resp_id := prop "id" request; result := None;
                  error := Some {| code := -32603; message := msg; data := None |} |}
        /\ forall p, prop "params" request = Some p -> p <> JNull ->
                     msg = "Tool name is required")
  /\ (forall srv', handleRequest srv' req res = out).
Proof.
  intros Hd Hm Hp. cbv zeta.
  rewrite (handleRequest_dispatched _ _ _ auth request Hd).
  split; [reflexivity|]. split.
  - cbn [payload json]. unfold processRequest. rewrite route_tools_call by exact Hm.
    destruct (handleCallTool_non_object srv srv (prop "params" request)
                {| ctx_auth := auth; ctx_req := req |} Hp) as (_ & msg & -> & Hmsg).
    exists msg. split; [reflexivity | exact Hmsg].
  - intros srv'. rewrite (handleRequest_dispatched _ _ _ auth request Hd).
    f_equal. unfold processRequest. rewrite !route_tools_call by exact Hm.
    now rewrite (proj1 (handleCallTool_non_object srv' srv (prop "params" request)
                          {| ctx_auth := auth; ctx_req := req |} Hp)).
Qed.

(** ** Every answer *)

(** The shape of every answer: the CORS headers on top of the headers of
    the response, one of five statuses, and a payload. *)
Lemma handleRequest_shape (srv : UnifiedMCPServer) (req : VercelRequest)
    (res : VercelResponse) :
  exists n pl,
    handleRequest srv req res =
    {| resHeaders := resHeaders (setCorsHeaders res); statusCode := n; payload := pl |}
    /\ n ∈ [200; 400; 401; 405; 500] /\ pl <> NotSent.
Proof.
  destruct (String.eqb_spec (method req) "OPTIONS") as [Ho|Ho].
  { unfold handleRequest. rewrite Ho. do 2 eexists.
    split; [reflexivity | split; [set_solver | discriminate]]. }
  destruct (String.eqb_spec (method req) "POST") as [Hp|Hp].
  2:{ rewrite handleRequest_other_method by assumption. do 2 eexists.
      split; [reflexivity | split; [set_solver | discriminate]]. }
  destruct (MCPAuthManager.extractAuthFromRequest req) as [auth|] eqn:Ha.
  2:{ rewrite handleRequest_no_credential by assumption. do 2 eexists.
      split; [reflexivity | split; [set_solver | discriminate]]. }
  destruct (isValid auth) eqn:Hv.
  2:{ rewrite (handleRequest_bad_credential _ _ _ auth) by assumption.
      do 2 eexists. split; [reflexivity | split; [set_solver | discriminate]]. }
  destruct (body req) as [e|v] eqn:Hb.
  { rewrite (handleRequest_body_throws _ _ _ auth e) by assumption.
    do 2 eexists. split; [reflexivity | split; [set_solver | discriminate]]. }
  destruct (is_str (v ≫= prop "jsonrpc") "2.0") eqn:Hr.
  - destruct v as [request|]; [|discriminate]. simpl in Hr.
    assert (Hd : dispatched req auth request) by (unfold dispatched; tauto).
    rewrite (handleRequest_dispatched _ _ _ auth request Hd).
    do 2 eexists. split; [reflexivity | split; [set_solver | discriminate]].
  - rewrite (handleRequest_bad_envelope _ _ _ auth v) by assumption.
    do 2 eexists. split; [reflexivity | split; [set_solver | discriminate]].
Qed.


(** X5. When reading the body throws, a request with a valid credential is
    answered 500 with code -32603 and the fixed message "Internal server
    error": nothing of the thrown error reaches the client. Without a valid
    credential the body is never read and the answer is the 401. *)
Theorem body_error_is_masked (srv : UnifiedMCPServer) (req : VercelRequest)
    (res : VercelResponse) (e : Thrown) :
  method req = "POST" ->
  body req = BodyThrows e ->
  let out := handleRequest srv req res in
  match MCPAuthManager.extractAuthFromRequest req with
  | Some auth =>
      if isValid auth
      then statusCode out = 500
           /\ payload out =
                Json {| jsonrpc := "2.0"; resp_id := Some (JStr "internal_error");
                        result := None;
                        error := Some {| code := -32603;
                                         message := "Internal server error";
                                         data := None |} |}
      else statusCode out = 401
  | None => statusCode out = 401
  end.
Proof.
  intros Hm Hb. cbv zeta.
  destruct (MCPAuthManager.extractAuthFromRequest req) as [auth|] eqn:Ha.
  - destruct (isValid auth) eqn:Hv.
    + now rewrite (handleRequest_body_throws _ _ _ auth e).
    + now rewrite (handleRequest_bad_credential _ _ _ auth).
  - now rewrite handleRequest_no_credential.
Qed.

(** ** Which credentials pass *)

Lemma valid_credential_status (srv : UnifiedMCPServer) (req : VercelRequest)
    (res : VercelResponse) (auth : Auth) :
  method req = "POST" ->
  MCPAuthManager.extractAuthFromRequest req = Some auth ->
  isValid auth = true ->
  statusCode (handleRequest srv req res) ∈ [200; 400; 500].
Proof.
  intros Hm Ha Hv.
  destruct (body req) as [e|v] eqn:Hb.
  - rewrite (handleRequest_body_throws _ _ _ auth e) by assumption. set_solver.
  - destruct (is_str (v ≫= prop "jsonrpc") "2.0") eqn:Hr.
    + destruct v as [request|]; [|discriminate]. simpl in Hr.
      assert (Hd : dispatched req auth request) by (unfold dispatched; tauto).
      rewrite (handleRequest_dispatched _ _ _ auth request Hd). set_solver.
    + rewrite (handleRequest_bad_envelope _ _ _ auth v) by assumption. set_solver.
Qed.

(** X6. Every Bearer token that begins with "eyJ" passes the gate: it is
    classified as a JWT and [validateJWT] only repeats the prefix test, so
    the request is never answered 401, whatever follows the prefix. *)
Theorem jwt_shaped_token_always_accepted (srv : UnifiedMCPServer)
    (req : VercelRequest) (res : VercelResponse) (token : string) :
  method req = "POST" ->
  headers req !! "authorization" = Some ("Bearer " ++ token) ->
  startsWith token "eyJ" = true ->
  MCPAuthManager.extractAuthFromRequest req = Some {| type := "jwt"; credential := token |}
  /\ isValid {| type := "jwt"; credential := token |} = true
  /\ statusCode (handleRequest srv req res) ∈ [200; 400; 500].
Proof.
  intros Hm Hh Ht.
  assert (Ha : MCPAuthManager.extractAuthFromRequest req =
               Some {| type := "jwt"; credential := token |}).
  { unfold MCPAuthManager.extractAuthFromRequest.
    rewrite Hh, bearer_prefix, bearer_token, Ht. reflexivity. }
  assert (Hv : isValid {| type := "jwt"; credential := token |} = true).
  { unfold isValid, MCPAuthManager.validateJWT. simpl. rewrite Ht.
    destruct token; [discriminate | reflexivity]. }
  split; [exact Ha | split; [exact Hv|]].
  now apply (valid_credential_status srv req res _ Hm Ha Hv).
Qed.

(** X7. A Bearer key of at most 10 characters that is not JWT-shaped is a
    credential that is present but invalid: the answer is 401 with code
    -32001 and "Invalid credentials", whatever the body. *)
Theorem short_api_key_rejected (srv : UnifiedMCPServer) (req : VercelRequest)
    (res : VercelResponse) (key : string) :
  method req = "POST" ->
  headers req !! "authorization" = Some ("Bearer " ++ key) ->
  startsWith key "eyJ" = false ->
  (String.length key <= 10)%nat ->
  let out := handleRequest srv req res in
  statusCode out = 401
  /\ payload out =
       Json {| jsonrpc := "2.0"; resp_id := Some (JStr "auth_invalid"); result := None;
               error := Some {| code := -32001; message := "Invalid credentials";
                                data := None |} |}.
Proof.
  intros Hm Hh Hk Hlen. cbv zeta.
  assert (Ha := extract_bearer_api_key req key Hh Hk).
  assert (Hv : isValid {| type := "api_key"; credential := key |} = false).
  { unfold isValid. simpl. rewrite validateApiKey_length. apply Nat.ltb_ge. lia. }
  now rewrite (handleRequest_bad_credential _ _ _ _ Hm Ha Hv).
Qed.

(** ** The registry, continued *)

(** X8. Lookup after registration: [getTool] returns the descriptor just
    registered and [executeTool] runs the handler just registered; every
    other name is looked up and executed as before. *)
Theorem registerTool_then_lookup (tool : MCPTool) (h : Handler)
    (reg : MCPToolRegistry) :
  let reg' := registerTool tool h reg in
  getTool (name tool) reg' = Some tool
  /\ (forall params context, executeTool (name tool) params context reg' = h params context)
  /\ (forall nm, nm <> name tool ->
        getTool nm reg' = getTool nm reg
        /\ forall params context,
             executeTool nm params context reg' = executeTool nm params context reg).
Proof.
  cbv zeta. unfold getTool, executeTool, registerTool. simpl.
  repeat split.
  - apply map_get_set_eq.
  - intros params context. now rewrite map_get_set_eq.
  - apply map_get_set_ne. congruence.
  - intros params context. rewrite map_get_set_ne by congruence. reflexivity.
Qed.

Lemma Set_from_snoc (xs : list string) (x : string) :
  Set_from (xs ++ [x]) = set_add (Set_from xs) x.
Proof. unfold Set_from. now rewrite fold_left_app. Qed.

(** X9. The enumeration is in order of first registration: after any
    sequence of [registerTool] calls the names listed by [getAllTools] are
    the names of the calls with repetitions dropped, each at the place of
    its first registration, and a repeated registration changes neither the
    order nor the number of entries. *)
Theorem enumeration_in_first_registration_order (calls : list (MCPTool * Handler)) :
  List.map name (getAllTools (registerAll calls emptyRegistry)) =
    Set_from (List.map (fun call => name (fst call)) calls)
  /\ (forall tool h,
        name tool ∈ List.map (fun call => name (fst call)) calls ->
        List.map name (getAllTools (registerTool tool h (registerAll calls emptyRegistry)))
        = List.map name (getAllTools (registerAll calls emptyRegistry))).
Proof.
  assert (Hnames : forall cs,
             List.map name (getAllTools (registerAll cs emptyRegistry)) =
             Set_from (List.map (fun call => name (fst call)) cs)).
  { intros cs. rewrite names_are_keys by apply registerAll_ok, emptyRegistry_ok.
    induction cs as [|call cs IH] using rev_ind; [reflexivity|].
    rewrite registerAll_snoc, List.map_app. simpl List.map.
    rewrite Set_from_snoc, <- IH. unfold registerTool; simpl.
    apply map_keys_set. }
  split; [apply Hnames|].
  intros tool h Hin.
  pose proof (Hnames (calls ++ [(tool, h)])%list) as H.
  rewrite registerAll_snoc, List.map_app in H. simpl in H.
  rewrite Set_from_snoc in H. rewrite H, Hnames. unfold set_add.
  apply Set_from_elem, existsb_eqb_elem in Hin. now rewrite Hin.
Qed.

(** ** The serverless entry point *)

(** X10. While a required environment variable is unset or empty the server
    cannot be constructed, and the entry point answers every request, the
    OPTIONS preflight included, with 500 and code -32603; the data of the
    error names the missing variables and the request id header (or
    "unknown"). No instance is kept, so the next request tries again. *)
Theorem missing_environment_answers_500 (p : Platform) (timestamp : string)
    (req : VercelRequest) (res : VercelResponse) :
  payload res = NotSent ->
  List.filter (env_missing (env p)) requiredVars <> [] ->
  let out := handler p timestamp None req res in
  snd out = None
  /\ statusCode (fst out) = 500
  /\ payload (fst out) =
       Json {| jsonrpc := "2.0"; resp_id := None; result := None;
               error :=
                 Some {| code := -32603;
                         message := "Internal server error";
                         data :=
                           Some (JObj
                             [("error",
                                JStr ("Missing required environment variables: "
                                      ++ join ", " (List.filter (env_missing (env p))
                                                      requiredVars)));
                              ("timestamp", JStr timestamp);
                              ("requestId",
                                JStr (or_else (headers req !! "x-vercel-id")
                                        "unknown"))]) |} |}
  /\ resHeaders (fst out) !! "Access-Control-Allow-Origin" = Some "*".
Proof.
  intros Hres Hmiss. cbv zeta.
  unfold handler, getServerInstance, UnifiedMCPServer_new, SupabaseToolsProvider_new,
    validateEnvironment, headersSent.
  destruct (List.filter (env_missing (env p)) requiredVars) as [|v vs] eqn:E;
    [contradiction|].
  rewrite Hres. simpl. repeat split. by simplify_map_eq.
Qed.

(** X11. Once constructed the server is kept: the first request builds it
    and is handled by it, and every later request is handled by that same
    instance without looking at the environment again. *)
Theorem server_instance_is_reused (p p' : Platform) (timestamp : string)
    (srv : UnifiedMCPServer) (req req' : VercelRequest) (res res' : VercelResponse) :
  UnifiedMCPServer_new p = Ok srv ->
  let first := handler p timestamp None req res in
  fst first = handleRequest srv req res
  /\ snd first = Some srv
  /\ handler p' timestamp (snd first) req' res' = (handleRequest srv req' res', Some srv).
Proof.
  intros Hnew. cbv zeta. unfold handler, getServerInstance. rewrite Hnew. simpl.
  repeat split.
Qed.

(** * The client SDK *)

Import VercelMCPClient.

(** ** The hash of [getCacheKey] *)

Lemma toInt32_spec (z : Z) : exists k, toInt32 z = z + k * 2 ^ 32.
Proof.
  unfold toInt32. cbv zeta.
  pose proof (Z.div_mod z (2 ^ 32) ltac:(lia)) as H.
  destruct (z mod 2 ^ 32 <? 2 ^ 31).
  - exists (- (z / 2 ^ 32)). lia.
  - exists (- (z / 2 ^ 32) - 1). lia.
Qed.

Lemma toInt32_congr (a b : Z) :
  a mod 2 ^ 32 = b mod 2 ^ 32 -> toInt32 a = toInt32 b.
Proof. intros H. unfold toInt32. now rewrite H. Qed.

Lemma toInt32_shift (a k : Z) : toInt32 (a + k * 2 ^ 32) = toInt32 a.
Proof. apply toInt32_congr. apply Z_mod_plus_full. Qed.

Lemma toInt32_range (z : Z) : - 2 ^ 31 <= toInt32 z < 2 ^ 31.
Proof.
  unfold toInt32. cbv zeta.
  pose proof (Z.mod_pos_bound z (2 ^ 32) ltac:(lia)) as H.
  destruct (Z.ltb_spec (z mod 2 ^ 32) (2 ^ 31)); lia.
Qed.

Lemma toInt32_small (z : Z) : - 2 ^ 31 <= z < 2 ^ 31 -> toInt32 z = z.
Proof.
  intros Hz. unfold toInt32. cbv zeta.
  destruct (Z.le_gt_cases 0 z) as [Hpos|Hneg].
  - rewrite Z.mod_small by lia.
    destruct (Z.ltb_spec z (2 ^ 31)); lia.
  - replace (z mod 2 ^ 32) with (z + 2 ^ 32).
    + destruct (Z.ltb_spec (z + 2 ^ 32) (2 ^ 31)); lia.
    + apply (Z.mod_unique _ _ (-1)); lia.
Qed.

Lemma toInt32_idem (z : Z) : toInt32 (toInt32 z) = toInt32 z.
Proof. apply toInt32_small, toInt32_range. Qed.

Lemma hash_step_eq (h c : Z) : hash_step h c = toInt32 (h * 31 + c).
Proof.
  unfold hash_step, and32, shl32. cbv zeta.
  rewrite Z.land_diag, toInt32_idem, Z.shiftl_mul_pow2 by lia.
  destruct (toInt32_spec h) as [k1 Hk1].
  destruct (toInt32_spec (toInt32 h * 2 ^ 5)) as [k2 Hk2].
  rewrite Hk2, Hk1.
  replace ((h + k1 * 2 ^ 32) * 2 ^ 5 + k2 * 2 ^ 32 - h + c)
    with (h * 31 + c + (k1 * 2 ^ 5 + k2) * 2 ^ 32) by lia.
  apply toInt32_shift.
Qed.

Lemma fold_hash_step (codes : list Z) (h h' : Z) :
  toInt32 h = toInt32 h' ->
  toInt32 (fold_left hash_step codes h) =
  toInt32 (fold_left (fun acc c => acc * 31 + c) codes h').
Proof.
  revert h h'. induction codes as [|c codes IH]; intros h h' Hh; simpl; [exact Hh|].
  apply IH. rewrite hash_step_eq, toInt32_idem.
  destruct (toInt32_spec h) as [k Hk]. destruct (toInt32_spec h') as [k' Hk'].
  assert (E : h = h' + (k' - k) * 2 ^ 32) by lia.
  rewrite E.
  replace ((h' + (k' - k) * 2 ^ 32) * 31 + c)
    with (h' * 31 + c + ((k' - k) * 31) * 2 ^ 32) by lia.
  apply toInt32_shift.
Qed.

Lemma fold_hash_step_range (codes : list Z) (h : Z) :
  - 2 ^ 31 <= h < 2 ^ 31 -> - 2 ^ 31 <= fold_left hash_step codes h < 2 ^ 31.
Proof.
  revert h. induction codes as [|c codes IH]; intros h Hh; simpl; [exact Hh|].
  apply IH. rewrite hash_step_eq. apply toInt32_range.
Qed.

(** X12. The loop of [getCacheKey] computes the polynomial hash
    [c0 * 31^(n-1) + ... + c(n-1)] of the code units, wrapped to a signed
    32-bit integer; the hash always lies in [-2^31, 2^31). *)
Theorem hash_is_polynomial_mod_2_32 (codes : list Z) :
  hash_codes codes = toInt32 (polynomial31 codes)
  /\ - 2 ^ 31 <= hash_codes codes < 2 ^ 31.
Proof.
  assert (Hr : - 2 ^ 31 <= hash_codes codes < 2 ^ 31)
    by (apply fold_hash_step_range; lia).
  split; [|exact Hr].
  rewrite <- (toInt32_small _ Hr). now apply fold_hash_step.
Qed.

Lemma charCodes_app (a b : string) :
  charCodes (a ++ b) = (charCodes a ++ charCodes b)%list.
Proof.
  unfold charCodes. induction a as [|c a IH]; [reflexivity|].
  change (String c a ++ b)%string with (String c (a ++ b))%string.
  simpl. now rewrite IH.
Qed.

Lemma hash_codes_app (xs ys : list Z) :
  hash_codes (xs ++ ys) = fold_left hash_step ys (hash_codes xs).
Proof. unfold hash_codes. apply fold_left_app. Qed.

Lemma string_app_assoc (a b c : string) : ((a ++ b) ++ c = a ++ (b ++ c))%string.
Proof.
  induction a as [|x a IH]; [reflexivity|].
  change (String x ((a ++ b) ++ c) = String x (a ++ (b ++ c)))%string.
  now rewrite IH.
Qed.

Lemma getCacheKey_Aa_BB (before after : string)
    (parameters : list (string * JSON)) :
  getCacheKey (before ++ "Aa" ++ after) parameters =
  getCacheKey (before ++ "BB" ++ after) parameters.
Proof.
  unfold getCacheKey, keyData. apply (f_equal toString36).
  rewrite !string_app_assoc, !charCodes_app, !hash_codes_app, !fold_left_app.
  do 3 f_equal.
  set (h := hash_codes (charCodes before)).
  change (charCodes "Aa") with [65; 97]. change (charCodes "BB") with [66; 66].
  cbn [fold_left]. rewrite !hash_step_eq. apply toInt32_congr.
  destruct (toInt32_spec (h * 31 + 65)) as [k1 ->].
  destruct (toInt32_spec (h * 31 + 66)) as [k2 ->].
  replace ((h * 31 + 65 + k1 * 2 ^ 32) * 31 + 97)
    with ((h * 31 + 66 + k2 * 2 ^ 32) * 31 + 66 + ((k1 - k2) * 31) * 2 ^ 32) by lia.
  apply Z_mod_plus_full.
Qed.

(** X13. Cache keys are not injective in the tool name: replacing "Aa" by
    "BB" anywhere in the name leaves the key unchanged, for every
    parameter object. *)
Theorem cache_key_collision (before after : string)
    (parameters : list (string * JSON)) :
  getCacheKey (before ++ "Aa" ++ after) parameters =
  getCacheKey (before ++ "BB" ++ after) parameters.
Proof. apply getCacheKey_Aa_BB. Qed.

Lemma JSON_nested_ind (P : JSON -> Prop) :
  P JNull -> (forall b, P (JBool b)) -> (forall n, P (JNum n)) ->
  (forall s, P (JStr s)) ->
  (forall items, Forall P items -> P (JArr items)) ->
  (forall fields, Forall (fun kv => P (snd kv)) fields -> P (JObj fields)) ->
  forall v, P v.
Proof.
  intros HNull HBool HNum HStr HArr HObj. fix IH 1.
  intros [|b|n|s|items|fields];
    [exact HNull | apply HBool | apply HNum | apply HStr | |].
  - apply HArr. induction items as [|x rest IHrest]; constructor;
      [apply IH | exact IHrest].
  - apply HObj. induction fields as [|[k x] rest IHrest]; constructor;
      [apply IH | exact IHrest].
Qed.

Lemma assoc_map {A B : Type} (g : A -> B) (k : string) (fields : list (string * A)) :
  assoc k (List.map (fun kv => (fst kv, g (snd kv))) fields) = g <$> assoc k fields.
Proof.
  induction fields as [|[k' v] rest IH]; simpl; [reflexivity|].
  destruct (String.eqb k k'); [reflexivity | exact IH].
Qed.

Lemma assoc_present {A : Type} (k : string) (fields : list (string * A)) :
  k ∈ List.map fst fields -> is_Some (assoc k fields).
Proof.
  induction fields as [|[k' v] rest IH]; simpl; intros Hk.
  - now apply elem_of_nil in Hk.
  - destruct (String.eqb_spec k k'); [eauto|].
    apply elem_of_cons in Hk as [?|Hk]; [contradiction | now apply IH].
Qed.

Lemma omap_pointwise {A B : Type} (f g : A -> option B) (l : list A) :
  (forall x, x ∈ l -> f x = g x) -> omap f l = omap g l.
Proof.
  induction l as [|x l IH]; intros H; [reflexivity|].
  change (match f x with Some y => y :: omap f l | None => omap f l end =
          match g x with Some y => y :: omap g l | None => omap g l end).
  rewrite (H x) by left. rewrite IH; [reflexivity|].
  intros y Hy. apply H. now right.
Qed.

Lemma omap_total {A B : Type} (f : A -> option B) (g : A -> B) (l : list A) :
  (forall x, x ∈ l -> f x = Some (g x)) -> omap f l = List.map g l.
Proof.
  induction l as [|x l IH]; intros H; [reflexivity|].
  change (match f x with Some y => y :: omap f l | None => omap f l end =
          g x :: List.map g l).
  rewrite (H x) by left. rewrite IH; [reflexivity|].
  intros y Hy. apply H. now right.
Qed.

(** The members written for an object are those of the pruned object. *)
Lemma written_prune (K : list string) (fields : list (string * JSON)) (P : string) :
  Forall (fun kv => stringify K (prune K (snd kv)) = stringify K (snd kv)) fields ->
  P ∈ K ->
  assoc P (List.map (fun kv => (fst kv, stringify K (snd kv)))
             (List.filter (fun kv => existsb (String.eqb (fst kv)) K)
                (List.map (fun kv => (fst kv, prune K (snd kv))) fields))) =
  assoc P (List.map (fun kv => (fst kv, stringify K (snd kv))) fields).
Proof.
  intros Hall HP. induction Hall as [|[k v] rest Hv _ IH]; [reflexivity|].
  cbn [List.map List.filter fst snd]. cbn [snd] in Hv.
  destruct (existsb (String.eqb k) K) eqn:Hk.
  - cbn [List.map assoc fst snd]. rewrite Hv, IH. reflexivity.
  - cbn [assoc]. rewrite IH.
    destruct (String.eqb_spec P k) as [->|_]; [|reflexivity].
    apply existsb_eqb_elem in HP. congruence.
Qed.

Lemma stringify_prune (K : list string) (v : JSON) :
  stringify K (prune K v) = stringify K v.
Proof.
  induction v as [|b|n|s|items IH|fields IH] using JSON_nested_ind;
    try reflexivity.
  - cbn [prune stringify]. do 3 f_equal. rewrite List.map_map.
    induction IH as [|x rest Hx _ IHrest]; [reflexivity|].
    cbn [List.map]. now rewrite Hx, IHrest.
  - cbn [prune stringify]. cbv zeta. do 3 f_equal.
    apply omap_pointwise. intros P HP.
    now rewrite (written_prune K fields P IH HP).
Qed.

(** Sorting by insertion. *)
Lemma insert_sorted_perm (x : string) (l : list string) :
  insert_sorted x l ≡ₚ x :: l.
Proof.
  induction l as [|y rest IH]; simpl; [reflexivity|].
  destruct (String.leb x y); [reflexivity|].
  rewrite IH. apply Permutation_swap.
Qed.

Lemma sort_strings_perm (xs : list string) : sort_strings xs ≡ₚ xs.
Proof.
  induction xs as [|x xs IH]; simpl; [reflexivity|].
  unfold sort_strings in *. simpl. now rewrite insert_sorted_perm, IH.
Qed.

Lemma insert_sorted_Sorted (x : string) (l : list string) :
  Sorted (fun a b => String.leb a b = true) l ->
  Sorted (fun a b => String.leb a b = true) (insert_sorted x l).
Proof.
  induction l as [|y rest IH]; intros Hs; simpl.
  - repeat constructor.
  - destruct (String.leb x y) eqn:Hxy.
    + constructor; [exact Hs | now constructor].
    + assert (Hyx : String.leb y x = true).
      { destruct (String.leb_total x y) as [H|H]; [congruence | exact H]. }
      inversion Hs as [|? ? Hrest Hhd]; subst.
      constructor; [now apply IH|].
      destruct rest as [|z rest']; simpl.
      * now constructor.
      * destruct (String.leb x z); constructor; [exact Hyx|].
        now inversion Hhd.
Qed.

Lemma sort_strings_Sorted (xs : list string) :
  Sorted (fun a b => String.leb a b = true) (sort_strings xs).
Proof.
  induction xs as [|x xs IH]; [constructor|].
  now apply insert_sorted_Sorted.
Qed.

Lemma keys_elem (fields : list (string * JSON)) (k : string) :
  k ∈ sort_strings (keys fields) <-> k ∈ List.map fst fields.
Proof. rewrite sort_strings_perm. unfold keys. apply Set_from_elem. Qed.

(** X14. The sorted top-level keys are the replacer of [JSON.stringify], and
    a replacer applies at every depth. The key data lists every top-level
    key once, in ascending order whatever the order in the object. Inside
    nested objects only the members named like a top-level key are written
    (the case [a], [b], [c] below: [b] is kept, [c] is not). So two calls
    whose parameters have the same top-level keys and agree once the other
    nested members are removed share one cache key. *)
Theorem nested_members_not_in_cache_key (toolName : string)
    (parameters parameters' : list (string * JSON)) :
  let K := sort_strings (keys parameters) in
  (Sorted (fun a b => String.leb a b = true) K
   /\ NoDup K
   /\ (forall k, k ∈ K <-> k ∈ List.map fst parameters)
   /\ keyData toolName parameters =
        toolName ++ ":{"
          ++ join "," (List.map (fun k => quote k ++ ":"
                                          ++ stringify K (default JNull (assoc k parameters)))
                                K)
          ++ "}")
  /\ (forall a b c v vb vc,
        String.leb b a = false ->
        String.eqb a c = false -> String.eqb b c = false ->
        String.eqb a "__proto__" = false ->
        keyData toolName [(b, vb); (a, JObj [(c, vc); (b, v)])] =
        toolName ++ ":{" ++ quote a ++ ":{" ++ quote b ++ ":" ++ stringify [a; b] v ++ "},"
                 ++ quote b ++ ":" ++ stringify [a; b] vb ++ "}")
  /\ (sort_strings (keys parameters') = K ->
      prune K (JObj parameters) = prune K (JObj parameters') ->
      keyData toolName parameters = keyData toolName parameters'
      /\ getCacheKey toolName parameters = getCacheKey toolName parameters').
Proof.
  cbv zeta. split; [|split].
  - split; [apply sort_strings_Sorted|].
    split; [rewrite sort_strings_perm; apply Set_from_NoDup|].
    split; [apply keys_elem|].
    unfold keyData. cbn [stringify]. cbv zeta.
    rewrite (omap_total _
               (fun k => quote k ++ ":"
                         ++ stringify (sort_strings (keys parameters))
                              (default JNull (assoc k parameters)))).
    + reflexivity.
    + intros k Hk. apply keys_elem in Hk.
      rewrite assoc_map. destruct (assoc_present k parameters Hk) as [v ->].
      reflexivity.
  - intros a b c v vb vc Hba Hac Hbc Hproto.
    assert (Hab : String.eqb a b = false).
    { destruct (String.eqb_spec a b) as [->|_]; [|reflexivity].
      destruct (String.leb_total b b); congruence. }
    assert (Hba' : String.eqb b a = false) by now rewrite String.eqb_sym.
    unfold keyData, keys, Set_from, sort_strings, set_add.
    cbn [List.map fst fold_left fold_right existsb app insert_sorted].
    rewrite Hab. cbn [orb app fold_right insert_sorted]. rewrite Hba.
    cbn [stringify List.map fst snd omap assoc]. cbv zeta.
    cbn [List.map fst snd omap assoc].
    unfold inherited. cbn [list_omap].
    rewrite !String.eqb_refl, Hab, Hac, Hproto. cbn [list_omap].
    rewrite Hbc. cbn [join]. rewrite !string_app_assoc. reflexivity.
  - intros HK Hprune. unfold getCacheKey.
    enough (keyData toolName parameters = keyData toolName parameters')
      as -> by (split; reflexivity).
    unfold keyData. rewrite HK.
    rewrite <- (stringify_prune _ (JObj parameters')), <- Hprune.
    now rewrite stringify_prune.
Qed.

(** ** The result cache *)

Lemma map_set_length {V : Type} (k : string) (v : V) (m : JSMap V) :
  (length (map_set k v m) <= S (length m))%nat.
Proof.
  induction m as [|[k' v'] rest IH]; simpl; [lia|].
  destruct (String.eqb k k'); simpl; lia.
Qed.

Lemma map_set_present_length {V : Type} (k : string) (v : V) (m : JSMap V) :
  k ∈ map_keys m -> length (map_set k v m) = length m.
Proof.
  induction m as [|[k' v'] rest IH]; simpl; intros Hk.
  - now apply elem_of_nil in Hk.
  - destruct (String.eqb_spec k k') as [->|Hne]; simpl; [reflexivity|].
    apply elem_of_cons in Hk as [?|Hk]; [contradiction|]. now rewrite IH.
Qed.

Lemma map_set_absent {V : Type} (k : string) (v : V) (m : JSMap V) :
  k ∉ map_keys m -> map_set k v m = (m ++ [(k, v)])%list.
Proof.
  induction m as [|[k' v'] rest IH]; simpl; intros Hk; [reflexivity|].
  apply not_elem_of_cons in Hk as [Hne Hk].
  destruct (String.eqb_spec k k'); [contradiction|]. now rewrite IH.
Qed.

Lemma map_get_delete_eq {V : Type} (k : string) (m : JSMap V) :
  map_get k (map_delete k m) = None.
Proof.
  unfold map_get, map_delete. induction m as [|[k' v'] rest IH]; simpl; [reflexivity|].
  destruct (String.eqb_spec k' k) as [->|Hne]; simpl; [exact IH|].
  destruct (String.eqb_spec k k'); [congruence | exact IH].
Qed.

Lemma map_get_delete_ne {V : Type} (k k' : string) (m : JSMap V) :
  k <> k' -> map_get k' (map_delete k m) = map_get k' m.
Proof.
  intros Hne. unfold map_get, map_delete.
  induction m as [|[k0 v0] rest IH]; simpl; [reflexivity|].
  destruct (String.eqb_spec k0 k) as [->|Hk]; simpl.
  - destruct (String.eqb_spec k' k); [congruence | exact IH].
  - destruct (String.eqb_spec k' k0); [reflexivity | exact IH].
Qed.

Lemma map_delete_length {V : Type} (k : string) (v : V) (m : JSMap V) :
  (k, v) ∈ m -> (length (map_delete k m) < length m)%nat.
Proof.
  unfold map_delete. induction m as [|[k' v'] rest IH]; intros Hin.
  - now apply elem_of_nil in Hin.
  - simpl. destruct (String.eqb_spec k' k) as [->|Hne]; simpl.
    + pose proof (List.filter_length_le
                    (fun kv : string * V => negb (String.eqb (fst kv) k)) rest). lia.
    + apply elem_of_cons in Hin as [[= -> ->]|Hin]; [contradiction|].
      specialize (IH Hin). lia.
Qed.

Lemma insert_entry_perm (x : string * CacheEntry) (l : list (string * CacheEntry)) :
  insert_entry x l ≡ₚ x :: l.
Proof.
  induction l as [|y rest IH]; simpl; [reflexivity|].
  destruct (timestamp (snd x) <=? timestamp (snd y)); [reflexivity|].
  rewrite IH. apply Permutation_swap.
Qed.

Lemma sort_entries_perm (l : list (string * CacheEntry)) : sort_entries l ≡ₚ l.
Proof.
  induction l as [|x rest IH]; simpl; [reflexivity|].
  rewrite insert_entry_perm. now rewrite IH.
Qed.

(** With the newest entry last, the head of the sorted entries is one of
    the earlier entries. *)
Lemma oldest_is_not_the_newest (l : list (string * CacheEntry))
    (y : string * CacheEntry) :
  l <> [] ->
  (forall x, x ∈ l -> timestamp (snd x) <= timestamp (snd y)) ->
  exists h t, sort_entries (l ++ [y]) = h :: t /\ h ∈ l.
Proof.
  induction l as [|x rest IH]; intros Hne Hle; [contradiction|].
  simpl. destruct rest as [|x' rest'].
  - simpl. assert (Hx := Hle x ltac:(left)).
    destruct (Z.leb_spec (timestamp (snd x)) (timestamp (snd y))); [|lia].
    eexists _, _. split; [reflexivity | left].
  - destruct IH as (h & t & Hs & Hh); [discriminate | |].
    { intros z Hz. apply Hle. now right. }
    rewrite Hs. simpl.
    destruct (timestamp (snd x) <=? timestamp (snd h)).
    + eexists _, _. split; [reflexivity | left].
    + eexists _, _. split; [reflexivity | now right].
Qed.

Lemma key_of_entry {V : Type} (k : string) (v : V) (m : JSMap V) :
  (k, v) ∈ m -> k ∈ map_keys m.
Proof.
  intros H. unfold map_keys. apply list_elem_of_fmap. now exists (k, v).
Qed.

(** Under a clock that does not run backwards, the entry written by
    [cacheResult] is in the cache afterwards. *)
Lemma cacheResult_lookup (now : Z) (cacheKey : string) (r : option JSON) (cl : Client) :
  (length (cache cl) <= 100)%nat ->
  (forall k e, (k, e) ∈ cache cl -> timestamp e <= now) ->
  map_get cacheKey (cache (cacheResult now cacheKey r cl)) =
  Some {| cached := r; timestamp := now |}.
Proof.
  intros Hlen Hmono. unfold cacheResult. cbv zeta.
  set (entry := {| cached := r; timestamp := now |}).
  destruct (Nat.ltb_spec 100 (length (map_set cacheKey entry (cache cl)))) as [Hbig|_];
    [|apply map_get_set_eq].
  assert (Hnew : cacheKey ∉ map_keys (cache cl)).
  { intros Hin. rewrite (map_set_present_length _ _ _ Hin) in Hbig. lia. }
  rewrite (map_set_absent _ _ _ Hnew) in *.
  destruct (oldest_is_not_the_newest (cache cl) (cacheKey, entry)) as (h & t & Hs & Hh).
  - intros E. rewrite E in Hbig. simpl in Hbig. lia.
  - intros [k e] Hx. simpl. now apply (Hmono k e).
  - rewrite Hs. destruct h as [oldestKey e]. simpl.
    rewrite map_get_delete_ne.
    + rewrite <- (map_set_absent _ _ _ Hnew). apply map_get_set_eq.
    + intros ->. apply Hnew. now apply (key_of_entry _ e).
Qed.

(** X15. The cache never grows beyond 100 entries: [cacheResult] keeps a
    cache of at most 100 entries at most that large. *)
Theorem cache_stays_bounded (now : Z) (cacheKey : string) (r : option JSON)
    (cl : Client) :
  (length (cache cl) <= 100)%nat ->
  (length (cache (cacheResult now cacheKey r cl)) <= 100)%nat.
Proof.
  intros Hlen. unfold cacheResult. cbv zeta.
  set (m := map_set cacheKey _ (cache cl)).
  assert (Hm : (length m <= 101)%nat).
  { pose proof (map_set_length cacheKey {| cached := r; timestamp := now |} (cache cl)).
    unfold m. lia. }
  destruct (Nat.ltb_spec 100 (length m)) as [Hbig|Hsmall]; [|exact Hsmall].
  destruct (sort_entries m) as [|[oldestKey e] t] eqn:Hs.
  - pose proof (Permutation_length (sort_entries_perm m)) as Hp.
    rewrite Hs in Hp. simpl in Hp. lia.
  - simpl. assert (Hin : (oldestKey, e) ∈ m).
    { rewrite <- (sort_entries_perm m), Hs. left. }
    pose proof (map_delete_length _ _ _ Hin). lia.
Qed.

(** X16. Under a clock that does not run backwards, a result just cached is
    served again as long as its age does not exceed [cacheTtl], the age
    [cacheTtl] itself included; reading it changes nothing. *)
Theorem fresh_result_is_served (now now' : Z) (cacheKey : string) (r : option JSON)
    (cl : Client) :
  (length (cache cl) <= 100)%nat ->
  (forall k e, (k, e) ∈ cache cl -> timestamp e <= now) ->
  now' - now <= cacheTtl (config cl) ->
  getCachedResult now' cacheKey (cacheResult now cacheKey r cl) =
  (r, cacheResult now cacheKey r cl).
Proof.
  intros Hlen Hmono Hage. unfold getCachedResult.
  rewrite (cacheResult_lookup now cacheKey r cl Hlen Hmono). simpl.
  assert (Hc : config (cacheResult now cacheKey r cl) = config cl).
  { unfold cacheResult. cbv zeta.
    destruct (100 <? length _)%nat; [|reflexivity].
    now destruct (sort_entries _) as [|[? ?] ?]. }
  rewrite Hc. destruct (Z.ltb_spec (cacheTtl (config cl)) (now' - now)); [lia|].
  reflexivity.
Qed.

(** X17. An entry older than [cacheTtl] is not served: [getCachedResult]
    returns [null], removes that entry and leaves every other entry in
    place. *)
Theorem expired_entry_is_dropped (now : Z) (cacheKey : string) (entry : CacheEntry)
    (cl : Client) :
  map_get cacheKey (cache cl) = Some entry ->
  cacheTtl (config cl) < now - timestamp entry ->
  let '(served, cl') := getCachedResult now cacheKey cl in
  served = Some JNull
  /\ map_get cacheKey (cache cl') = None
  /\ (forall k, k <> cacheKey -> map_get k (cache cl') = map_get k (cache cl))
  /\ (length (cache cl') < length (cache cl))%nat.
Proof.
  intros Hget Hold. unfold getCachedResult. rewrite Hget.
  destruct (Z.ltb_spec (cacheTtl (config cl)) (now - timestamp entry)); [|lia].
  simpl. repeat split.
  - apply map_get_delete_eq.
  - intros k Hk. apply map_get_delete_ne. congruence.
  - apply (map_delete_length _ entry). now apply map_get_elem.
Qed.

(** ** Retries *)

Lemma makeRequest_outcome (net : Network) (request : JSON) (cl : Client) (w : World) :
  makeRequest net request cl w =
  (attempt_outcome net request cl (fetches w),
   {| fetches := S (fetches w); sleeps := sleeps w |}).
Proof.
  unfold attempt_outcome, makeRequest. cbv zeta. simpl.
  destruct (net (fetches w) _) as [| msg | st txt [data|msg]]; try reflexivity.
  - destruct (negb _); reflexivity.
  - destruct (negb _); reflexivity.
Qed.

Lemma flat_map_seq_shift {A : Type} (f : nat -> list A) (a n : nat) :
  flat_map f (seq (S a) n) = flat_map (fun i => f (S i)) (seq a n).
Proof.
  revert a. induction n as [|n IH]; intros a; simpl; [reflexivity|].
  now rewrite IH.
Qed.

(** [n] failed attempts in a row take the loop [n] rounds further. *)
Lemma retry_loop_failures (net : Network) (request : JSON) (cl : Client)
    (err : nat -> Thrown) (n : nat) :
  forall (remaining : nat) (attempt : Z) (lastError : option Thrown) (w : World),
    (forall i, (i < n)%nat ->
       attempt_outcome net request cl (fetches w + i) = Throw (err (fetches w + i)%nat)) ->
    retry_loop net request cl (n + remaining) attempt lastError w =
    retry_loop net request cl remaining (attempt + Z.of_nat n)
      (match n with
       | O => lastError
       | S n' => Some (err (fetches w + n')%nat)
       end)
      {| fetches := fetches w + n;
         sleeps := (sleeps w
                    ++ flat_map (fun i => pause_before cl (attempt + Z.of_nat i))
                                (seq 0 n))%list |}.
Proof.
  induction n as [|n IH]; intros remaining attempt lastError w Hfail.
  - simpl. rewrite Z.add_0_r, Nat.add_0_r, app_nil_r. now destruct w.
  - cbn [Nat.add retry_loop].
    rewrite makeRequest_outcome. cbn [fetches sleeps].
    replace (fetches (if 0 <? attempt then _ else w)) with (fetches w)
      by (destruct (0 <? attempt); reflexivity).
    specialize (Hfail 0%nat ltac:(lia)) as H0. rewrite Nat.add_0_r in H0. rewrite H0.
    rewrite IH.
    + cbn [fetches sleeps]. f_equal.
      * lia.
      * destruct n; f_equal; f_equal; lia.
      * f_equal; [lia|].
        cbn [seq flat_map]. rewrite Z.add_0_r, flat_map_seq_shift.
        replace (sleeps (if 0 <? attempt then _ else w))
          with (sleeps w ++ pause_before cl attempt)%list
          by (unfold pause_before; destruct (0 <? attempt); simpl;
              [reflexivity | now rewrite app_nil_r]).
        rewrite <- app_assoc. f_equal. f_equal.
        apply flat_map_ext. intros i. f_equal. lia.
    + intros i Hi. cbn [fetches].
      replace (S (fetches w) + i)%nat with (fetches w + S i)%nat by lia.
      apply Hfail. lia.
Qed.

Lemma pauses_from_zero (cl : Client) (n : nat) :
  flat_map (fun i => pause_before cl (0 + Z.of_nat i)) (seq 0 (S n)) =
  List.map (fun i => retryDelay (config cl) * Z.of_nat i) (seq 1 n).
Proof.
  cbn [seq flat_map]. unfold pause_before at 1. simpl.
  rewrite flat_map_seq_shift, <- seq_shift, List.map_map.
  induction (seq 0 n) as [|i l IH]; [reflexivity|].
  cbn [flat_map List.map]. rewrite IH. unfold pause_before.
  destruct (Z.ltb_spec 0 (0 + Z.of_nat (S i))); [|lia].
  cbn [app]. now rewrite Z.add_0_l.
Qed.

Lemma linear_backoff_total (d : Z) (n : nat) :
  2 * fold_right Z.add 0 (List.map (fun i => d * Z.of_nat i) (seq 1 n)) =
  d * Z.of_nat n * (Z.of_nat n + 1).
Proof.
  induction n as [|n IH]; [simpl; lia|].
  rewrite seq_S, List.map_app, fold_right_app. simpl.
  assert (H : forall l a, fold_right Z.add a l = fold_right Z.add 0 l + a).
  { induction l as [|x l IHl]; intros a; simpl; [lia|]. rewrite IHl. lia. }
  rewrite H. lia.
Qed.

(** X18. When every attempt fails, [makeRequestWithRetry] makes exactly
    [maxRetries + 1] calls of [fetch], pauses [retryDelay * i] before the
    [i]-th retry (in total [retryDelay * maxRetries * (maxRetries + 1) / 2])
    and throws the error of the last attempt. *)
Theorem retry_gives_up_after_maxRetries (net : Network) (request : JSON)
    (cl : Client) (w : World) (err : nat -> Thrown) :
  0 <= maxRetries (config cl) ->
  (forall i, (i <= Z.to_nat (maxRetries (config cl)))%nat ->
     attempt_outcome net request cl (fetches w + i) = Throw (err i)) ->
  let m := Z.to_nat (maxRetries (config cl)) in
  let pauses := List.map (fun i => retryDelay (config cl) * Z.of_nat i) (seq 1 m) in
  makeRequestWithRetry net request cl w =
    (Throw (err m), {| fetches := fetches w + S m; sleeps := (sleeps w ++ pauses)%list |})
  /\ 2 * fold_right Z.add 0 pauses =
     retryDelay (config cl) * maxRetries (config cl) * (maxRetries (config cl) + 1).
Proof.
  intros Hm Hfail. cbv zeta. split.
  - unfold makeRequestWithRetry.
    replace (Z.to_nat (maxRetries (config cl) + 1))
      with (S (Z.to_nat (maxRetries (config cl))) + 0)%nat by lia.
    rewrite (retry_loop_failures net request cl
               (fun k => err (k - fetches w)%nat)).
    + cbn [retry_loop]. rewrite pauses_from_zero. do 3 f_equal. lia.
    + intros i Hi. rewrite Hfail by lia. do 2 f_equal. lia.
  - rewrite linear_backoff_total. rewrite Z2Nat.id by lia. reflexivity.
Qed.

(** X19. The first attempt that succeeds ends the loop: after [j] failed
    attempts and a successful one, [makeRequestWithRetry] has made [j + 1]
    calls of [fetch] and returns the response, an envelope that carries a
    JSON-RPC error included. *)
Theorem retry_stops_at_first_success (net : Network) (request : JSON)
    (cl : Client) (w : World) (err : nat -> Thrown) (j : nat) (response : JSON) :
  Z.of_nat j <= maxRetries (config cl) ->
  (forall i, (i < j)%nat ->
     attempt_outcome net request cl (fetches w + i) = Throw (err i)) ->
  attempt_outcome net request cl (fetches w + j) = Ok response ->
  makeRequestWithRetry net request cl w =
    (Ok response,
     {| fetches := fetches w + S j;
        sleeps := (sleeps w
                   ++ List.map (fun i => retryDelay (config cl) * Z.of_nat i)
                               (seq 1 j))%list |}).
Proof.
  intros Hj Hfail Hok. unfold makeRequestWithRetry.
  replace (Z.to_nat (maxRetries (config cl) + 1))
    with (j + S (Z.to_nat (maxRetries (config cl)) - j))%nat by lia.
  rewrite (retry_loop_failures net request cl (fun k => err (k - fetches w)%nat)).
  - cbn [retry_loop]. rewrite makeRequest_outcome.
    replace (fetches (if 0 <? 0 + Z.of_nat j then _ else _)) with (fetches w + j)%nat
      by (destruct (0 <? 0 + Z.of_nat j); reflexivity).
    rewrite Hok. f_equal. f_equal; [lia|].
    transitivity (sleeps w
                  ++ flat_map (fun i => pause_before cl (0 + Z.of_nat i)) (seq 0 j)
                  ++ pause_before cl (0 + Z.of_nat j))%list.
    + unfold pause_before.
      destruct (0 <? 0 + Z.of_nat j); cbn [sleeps];
        [now rewrite <- app_assoc | now rewrite app_nil_r].
    + f_equal. rewrite <- pauses_from_zero, seq_S, flat_map_app. cbn [flat_map].
      now rewrite app_nil_r.
  - intros i Hi. rewrite Hfail by lia. do 2 f_equal. lia.
Qed.

(** X20. With a negative [maxRetries] no request is sent at all:
    [makeRequestWithRetry] throws "All retry attempts failed" at once. *)
Theorem negative_maxRetries_sends_nothing (net : Network) (request : JSON)
    (cl : Client) (w : World) :
  maxRetries (config cl) < 0 ->
  makeRequestWithRetry net request cl w =
  (Throw (ThrowError "All retry attempts failed"), w).
Proof.
  intros Hm. unfold makeRequestWithRetry.
  replace (Z.to_nat (maxRetries (config cl) + 1)) with 0%nat by lia.
  reflexivity.
Qed.

(** ** The client in front of the server *)

Lemma handleRequest_jsonrpc (srv : UnifiedMCPServer) (req : VercelRequest)
    (res : VercelResponse) (r : MCPResponse) :
  payload (handleRequest srv req res) = Json r -> jsonrpc r = "2.0".
Proof.
  intros Hr.
  destruct (handleRequest_cases srv req res)
    as [(_ & _ & H)|[(l & c & msg & _ & _ & H)|(auth & request & _ & _ & H)]];
    rewrite H in Hr; [discriminate | |]; injection Hr as <-; [reflexivity|].
  destruct (processRequest_cases srv request {| ctx_auth := auth; ctx_req := req |})
    as [(x & ->)|(c & msg & ->)]; reflexivity.
Qed.

Lemma validateResponse_envelope (r : MCPResponse) :
  jsonrpc r = "2.0" -> validateResponse (response_json r) = Ok (response_json r).
Proof. intros H. unfold validateResponse, response_json. simpl. now rewrite H. Qed.

(** X21. [validateResponse] accepts exactly the objects whose [jsonrpc]
    member is "2.0", and returns them unchanged; every envelope that the
    server writes is one of them. *)
Theorem server_envelopes_pass_validateResponse :
  (forall d, validateResponse d = Ok d <->
             exists fields, d = JObj fields
                            /\ assoc "jsonrpc" fields = Some (JStr "2.0"))
  /\ (forall d d', validateResponse d = Ok d' -> d' = d)
  /\ (forall srv req res r,
        payload (handleRequest srv req res) = Json r ->
        validateResponse (response_json r) = Ok (response_json r)).
Proof.
  split; [|split].
  - intros d. split.
    + intros H. unfold validateResponse in H.
      destruct d as [| | | | items|fields]; simpl in H; try discriminate.
      exists fields. split; [reflexivity|].
      destruct (is_str (assoc "jsonrpc" fields) "2.0") eqn:E; [|discriminate].
      now apply is_str_true.
    + intros (fields & -> & Hj). unfold validateResponse. simpl. now rewrite Hj.
  - intros d d' H. unfold validateResponse in H.
    destruct d as [| | | | items|fields]; try discriminate;
      destruct (negb _); congruence.
  - intros srv req res r Hr. apply validateResponse_envelope.
    now apply (handleRequest_jsonrpc srv req res).
Qed.

Lemma no_credential_rejected (srv : UnifiedMCPServer) (request : JSON) (cl : Client)
    (k : nat) :
  authType (config cl) <> "bearer" ->
  attempt_outcome (served_by srv) request cl k =
  Throw (ThrowError "HTTP 401: Unauthorized").
Proof.
  intros Hb. unfold attempt_outcome, makeRequest, served_by. cbv zeta.
  cbn [fetches f_headers f_method f_body].
  set (init := {| f_url := _; f_method := _; f_headers := _; f_body := _ |}).
  assert (Ha : MCPAuthManager.extractAuthFromRequest (incoming init) = None).
  { unfold MCPAuthManager.extractAuthFromRequest, incoming, init, auth_headers.
    cbn [headers f_headers].
    destruct (String.eqb (authType (config cl)) "api_key" && given (apiKey (config cl))).
    { reflexivity. }
    destruct (String.eqb_spec (authType (config cl)) "bearer") as [?|_];
      [contradiction|].
    cbn [andb].
    destruct (String.eqb (authType (config cl)) "jwt" && given (token (config cl)));
      reflexivity. }
  rewrite (handleRequest_no_credential srv (incoming init) newResponse eq_refl Ha).
  reflexivity.
Qed.

(** X22. Of the three authentication schemes of the client only "bearer"
    reaches the server's gate: with any other [authType], the default
    "api_key" (sent as X-API-Key) and "jwt" (sent as "JWT <token>") included,
    every request to the server is answered 401 and [makeRequest] throws
    "HTTP 401: Unauthorized". *)
Theorem only_bearer_scheme_authenticates (srv : UnifiedMCPServer) (request : JSON)
    (cl : Client) (w : World) :
  authType (config cl) <> "bearer" ->
  makeRequest (served_by srv) request cl w =
  (Throw (ThrowError "HTTP 401: Unauthorized"),
   {| fetches := S (fetches w); sleeps := sleeps w |}).
Proof.
  intros Hb. rewrite makeRequest_outcome. now rewrite no_credential_rejected.
Qed.

Lemma status_request_fails (srv : UnifiedMCPServer) (id : string) (cl : Client)
    (k : nat) :
  match attempt_outcome (served_by srv) (rpc "server/status" id None) cl k with
  | Ok response => truthy (prop "error" response) = true
  | Throw _ => True
  end.
Proof.
  unfold attempt_outcome, makeRequest, served_by. cbv zeta.
  cbn [fetches f_headers f_method f_body fst].
  set (init := {| f_url := _; f_method := _; f_headers := _; f_body := _ |}).
  destruct (handleRequest_cases srv (incoming init) newResponse)
    as [(H & _)|[(l & c & msg & _ & Hs & _)|(auth & request & Hd & Hs & Hp)]].
  - discriminate H.
  - destruct (handleRequest_shape srv (incoming init) newResponse)
      as (n & pl & E & Hn & _).
    rewrite E in Hs |- *. cbn [statusCode payload] in *.
    assert (Hno : negb ((200 <=? n) && (n <=? 299)) = true).
    { rewrite !elem_of_cons in Hn.
      destruct Hn as [->|[->|[->|[->|[->|Hn]]]]];
        [contradiction | reflexivity.. | now apply elem_of_nil in Hn]. }
    rewrite Hno. exact I.
  - rewrite Hs, Hp. cbn [negb andb Z.leb Z.compare Pos.compare Pos.compare_cont fst].
    destruct Hd as (_ & _ & _ & Hb & _). injection Hb as <-.
    change (processRequest srv (f_body init) _)
      with (createErrorResponse (Some (JStr id)) MCP_ERRORS.METHOD_NOT_FOUND
              "Method not found: server/status" None).
    reflexivity.
Qed.

(** X23. The client cannot connect to this server. [connect] probes with the
    method [server/status], which the server does not route: with a valid
    Bearer credential the answer is the JSON-RPC error "Method not found",
    otherwise an HTTP error; either way [connect] returns [false] after one
    request and leaves the client FAILED, [createVercelMCPClient] throws,
    and [callTool] refuses to send anything. *)
Theorem connect_never_succeeds (srv : UnifiedMCPServer) (id1 id2 : string)
    (cl : Client) (w : World) :
  connect (served_by srv) id1 id2 cl w =
    (false, set_state FAILED cl, {| fetches := S (fetches w); sleeps := sleeps w |})
  /\ (forall o, fst (createVercelMCPClient (served_by srv) id1 id2 o w) =
                Throw (ThrowError "Failed to connect to MCP server"))
  /\ (forall net now1 id now2 toolName parameters useCache w',
        callTool net now1 id now2 toolName parameters useCache (set_state FAILED cl) w' =
        (Throw (ThrowError "MCP client not connected. Call connect() first."),
         set_state FAILED cl, w')).
Proof.
  assert (Hc : forall c w0,
             connect (served_by srv) id1 id2 c w0 =
             (false, set_state FAILED c,
              {| fetches := S (fetches w0); sleeps := sleeps w0 |})).
  { intros c w0. unfold connect. cbv zeta. rewrite makeRequest_outcome.
    pose proof (status_request_fails srv id1 (set_state CONNECTING c) (fetches w0)) as H.
    destruct (attempt_outcome _ _ _ _) as [response|e]; [|reflexivity].
    rewrite H. reflexivity. }
  split; [apply Hc | split].
  - intros o. unfold createVercelMCPClient. now rewrite Hc.
  - reflexivity.
Qed.

(** ** Calls answered from the cache *)

Lemma cacheResult_config_state (now : Z) (cacheKey : string) (r : option JSON)
    (cl : Client) :
  config (cacheResult now cacheKey r cl) = config cl
  /\ state (cacheResult now cacheKey r cl) = state cl.
Proof.
  unfold cacheResult. cbv zeta.
  destruct (100 <? length _)%nat; [|split; reflexivity].
  destruct (sort_entries _) as [|[? ?] ?]; split; reflexivity.
Qed.

(** X24. [callTool] looks a cached result up by its key alone. Once a call
    of a tool whose name contains "Aa" has fetched and cached a result, a
    call of the tool named likewise with "BB", with the same parameters and
    within [cacheTtl], is answered with that result of the other tool, and
    no request is sent. *)
Theorem colliding_call_answered_from_cache (net net' : Network)
    (now1 now2 now3 now4 : Z) (id id' : string) (before after : string)
    (parameters : list (string * JSON)) (cl cl1 : Client) (w w1 : World) (r : JSON) :
  isConnected cl = true ->
  enableCaching (config cl) = true ->
  (length (cache cl) <= 100)%nat ->
  (forall k e, (k, e) ∈ cache cl -> timestamp e <= now2) ->
  map_get (getCacheKey (before ++ "Aa" ++ after) parameters) (cache cl) = None ->
  callTool net now1 id now2 (before ++ "Aa" ++ after) parameters true cl w =
    (Ok (Some r), cl1, w1) ->
  truthy (Some r) = true ->
  now3 - now2 <= cacheTtl (config cl) ->
  callTool net' now3 id' now4 (before ++ "BB" ++ after) parameters true cl1 w1 =
    (Ok (Some r), cl1, w1).
Proof.
  intros Hconn Hen Hlen Hmono Hmiss Hfirst Htruthy Hage.
  set (key := getCacheKey (before ++ "Aa" ++ after) parameters) in *.
  assert (Hcl1 : cl1 = cacheResult now2 key (Some r) cl).
  { unfold callTool in Hfirst. rewrite Hconn, Hen in Hfirst.
    cbn [negb andb] in Hfirst. fold key in Hfirst.
    unfold getCachedResult in Hfirst. rewrite Hmiss in Hfirst.
    cbv beta iota zeta in Hfirst.
    change (truthy (Some JNull)) with false in Hfirst. cbn [andb] in Hfirst.
    destruct (makeRequestWithRetry net _ cl w) as [[response|e] w']; [|discriminate].
    destruct (prop "error" response) as [err|].
    - destruct (truthy (Some err)); [discriminate|]. congruence.
    - congruence. }
  destruct (cacheResult_config_state now2 key (Some r) cl) as [Hcfg Hst].
  unfold callTool. rewrite <- getCacheKey_Aa_BB. fold key.
  unfold isConnected. rewrite Hcl1, Hst, Hcfg, Hen.
  unfold isConnected in Hconn. rewrite Hconn. cbn [negb andb].
  unfold getCachedResult.
  rewrite (cacheResult_lookup now2 key (Some r) cl Hlen Hmono), Hcfg.
  cbn [timestamp cached].
  destruct (Z.ltb_spec (cacheTtl (config cl)) (now3 - now2)); [lia|].
  now rewrite Htruthy.
Qed.

(** ** The rendering of the hash *)

Lemma digit36_spec (d : Z) :
  0 <= d < 36 ->
  exists c, digit36 d = String c EmptyString /\ digit_value c = d
            /\ Ascii.eqb c "-"%char = false.
Proof.
  intros Hd. unfold digit36.
  assert (Hn : (Z.to_nat d < 36)%nat) by lia.
  assert (E : d = Z.of_nat (Z.to_nat d)) by lia.
  revert E Hn. generalize (Z.to_nat d). intros k -> Hk.
  do 36 (destruct k as [|k]; [eexists; repeat split; reflexivity|]).
  lia.
Qed.

Lemma value_from_app (a : Z) (s t : string) :
  value_from a (s ++ t) = value_from (value_from a s) t.
Proof.
  unfold value_from. revert a. induction s as [|c s IH]; intros a; [reflexivity|].
  change (String c s ++ t)%string with (String c (s ++ t))%string.
  simpl. apply IH.
Qed.

Lemma digits36_value (fuel : nat) :
  forall n acc, 0 <= n < 36 ^ Z.of_nat (S fuel) ->
    value_from 0 (digits36 fuel n acc) = value_from n acc.
Proof.
  induction fuel as [|fuel IH]; intros n acc Hn; cbn [digits36].
  - destruct (Z.ltb_spec n 36) as [Hs|Hb]; [|simpl in Hn; lia].
    destruct (digit36_spec n ltac:(lia)) as (c & -> & Hv & _).
    rewrite value_from_app. unfold value_from at 2. simpl. now rewrite Hv.
  - destruct (Z.ltb_spec n 36) as [Hs|Hb].
    + destruct (digit36_spec n ltac:(lia)) as (c & -> & Hv & _).
      rewrite value_from_app. unfold value_from at 2. simpl. now rewrite Hv.
    + pose proof (Z.mod_pos_bound n 36 ltac:(lia)) as Hm.
      rewrite IH.
      * destruct (digit36_spec (n mod 36) Hm) as (c & -> & Hv & _).
        rewrite value_from_app. unfold value_from at 2. simpl. rewrite Hv.
        f_equal. pose proof (Z.div_mod n 36 ltac:(lia)). lia.
      * split; [apply Z.div_pos; lia|].
        apply Z.div_lt_upper_bound; [lia|].
        rewrite Nat2Z.inj_succ, Z.pow_succ_r in Hn by lia. lia.
Qed.

Lemma digits36_head (fuel : nat) :
  forall n acc, 0 <= n ->
    exists c rest, digits36 fuel n acc = String c rest /\ Ascii.eqb c "-"%char = false.
Proof.
  induction fuel as [|fuel IH]; intros n acc Hn; cbn [digits36].
  - destruct (Z.ltb_spec n 36) as [Hs|Hb].
    + destruct (digit36_spec n ltac:(lia)) as (c & -> & _ & Hc). now exists c, acc.
    + destruct (digit36_spec (n mod 36) (Z.mod_pos_bound n 36 ltac:(lia)))
        as (c & -> & _ & Hc).
      now exists c, acc.
  - destruct (Z.ltb_spec n 36) as [Hs|Hb].
    + destruct (digit36_spec n ltac:(lia)) as (c & -> & _ & Hc). now exists c, acc.
    + apply IH. apply Z.div_pos; lia.
Qed.

Lemma fuel_suffices (n : Z) : 0 <= n -> n < 36 ^ Z.of_nat (S (Z.to_nat (Z.log2 n))).
Proof.
  intros Hn. rewrite Nat2Z.inj_succ, Z2Nat.id by apply Z.log2_nonneg.
  destruct (Z.eq_dec n 0) as [->|Hz]; [simpl; lia|].
  pose proof (Z.log2_spec n ltac:(lia)) as [_ Hlt].
  apply (Z.lt_le_trans _ _ _ Hlt).
  apply Z.pow_le_mono_l. pose proof (Z.log2_nonneg n). lia.
Qed.

Lemma parse36_toString36 (n : Z) : parse36 (toString36 n) = n.
Proof.
  unfold toString36. destruct (Z.ltb_spec n 0) as [Hneg|Hpos].
  - change ("-" ++ ?s)%string with (String "-"%char s). unfold parse36.
    rewrite Ascii.eqb_refl, digits36_value by (split; [lia | apply fuel_suffices; lia]).
    unfold value_from. simpl. lia.
  - destruct (digits36_head (Z.to_nat (Z.log2 n)) n EmptyString Hpos)
      as (c & rest & E & Hc).
    unfold parse36. rewrite E, Hc, <- E.
    rewrite digits36_value by (split; [lia | apply fuel_suffices; lia]).
    reflexivity.
Qed.

(** X25. The cache key is the hash written in base 36, sign first: it
    reads back to the hash, so two calls share a cache key exactly when
    their key data have the same 32-bit hash. *)
Theorem cache_key_reads_back_to_hash (toolName1 toolName2 : string)
    (parameters1 parameters2 : list (string * JSON)) :
  parse36 (getCacheKey toolName1 parameters1) =
    hash_codes (charCodes (keyData toolName1 parameters1))
  /\ (getCacheKey toolName1 parameters1 = getCacheKey toolName2 parameters2 <->
      hash_codes (charCodes (keyData toolName1 parameters1)) =
      hash_codes (charCodes (keyData toolName2 parameters2))).
Proof.
  unfold getCacheKey. split; [apply parse36_toString36|].
  split; [|congruence].
  intros H. apply (f_equal parse36) in H. now rewrite !parse36_toString36 in H.
Qed.

(** ** Listing the tools of the server *)

Lemma first_attempt_succeeds (net : Network) (request : JSON) (cl : Client)
    (w : World) (response : JSON) :
  0 <= maxRetries (config cl) ->
  attempt_outcome net request cl (fetches w) = Ok response ->
  makeRequestWithRetry net request cl w =
  (Ok response, {| fetches := S (fetches w); sleeps := sleeps w |}).
Proof.
  intros Hm Hok. unfold makeRequestWithRetry.
  replace (Z.to_nat (maxRetries (config cl) + 1))
    with (S (Z.to_nat (maxRetries (config cl)))) by lia.
  cbn [retry_loop]. rewrite makeRequest_outcome.
  change (0 <? 0) with false. cbv iota. now rewrite Hok.
Qed.

Lemma bearer_request_dispatched (request : JSON) (cl : Client) (tok : string) :
  authType (config cl) = "bearer" ->
  token (config cl) = Some tok ->
  startsWith tok "eyJ" = false ->
  (10 < String.length tok)%nat ->
  is_str (prop "jsonrpc" request) "2.0" = true ->
  dispatched
    (incoming {| f_url := serverUrl (config cl);
                 f_method := "POST";
                 f_headers := [("Content-Type", "application/json");
                               ("Accept", "application/json")]
                              ++ auth_headers (config cl);
                 f_body := request |})
    {| type := "api_key"; credential := tok |} request.
Proof.
  intros Hty Htok Hjwt Hlen Hrpc.
  assert (Hgiven : given (Some tok) = true).
  { destruct tok; [simpl in Hlen; lia | reflexivity]. }
  unfold dispatched. repeat apply conj; try reflexivity; try exact Hrpc.
  - apply extract_bearer_api_key; [|exact Hjwt].
    unfold incoming, auth_headers. rewrite Hty, Htok, Hgiven. reflexivity.
  - unfold isValid. simpl. rewrite validateApiKey_length. now apply Nat.ltb_lt.
Qed.

(** X26. [listTools] needs no connection. With the "bearer" scheme and a
    key the server accepts, the client with no tools loaded gets, in one
    request, the descriptors of the server's registry in the order of the
    registry, and keeps them. *)
Theorem listTools_loads_server_registry (srv : UnifiedMCPServer) (id : string)
    (cl : Client) (w : World) (tok : string) :
  authType (config cl) = "bearer" ->
  token (config cl) = Some tok ->
  startsWith tok "eyJ" = false ->
  (10 < String.length tok)%nat ->
  0 <= maxRetries (config cl) ->
  nonempty (availableTools cl) = false ->
  let listed := JArr (List.map tool_json (getAllTools (registry srv))) in
  listTools (served_by srv) id cl w =
  (listed, set_tools listed cl, {| fetches := S (fetches w); sleeps := sleeps w |}).
Proof.
  intros Hty Htok Hjwt Hlen Hm Hempty. cbv zeta.
  unfold listTools. rewrite Hempty. unfold loadTools.
  set (request := rpc "tools/list" id None).
  assert (Hd := bearer_request_dispatched request cl tok Hty Htok Hjwt Hlen eq_refl).
  assert (Hok : attempt_outcome (served_by srv) request cl (fetches w) =
                Ok (response_json
                      {| jsonrpc := "2.0"; resp_id := Some (JStr id);
                         result := Some (handleListTools srv); error := None |})).
  { unfold attempt_outcome, makeRequest, served_by. cbv zeta.
    cbn [fetches fst].
    rewrite (handleRequest_dispatched srv _ newResponse _ request Hd).
    reflexivity. }
  rewrite (first_attempt_succeeds _ _ _ _ _ Hm Hok).
  reflexivity.
Qed.

(** ** The further theorems at sample inputs *)


Lemma registered_tool_call_witness :
  (statusCode (handleRequest sample_server script_call_request newResponse) = 200
   /\ payload (handleRequest sample_server script_call_request newResponse) =
        Json {| jsonrpc := "2.0"; resp_id := Some (JStr "2");
                result := Some (JObj [("success", JBool true); ("data", JArr [])]);
                error := None |})
  /\ (statusCode (handleRequest sample_server query_call_request newResponse) = 200
      /\ payload (handleRequest sample_server query_call_request newResponse) =
           Json {| jsonrpc := "2.0"; resp_id := Some (JStr "4"); result := None;
                   error := Some {| code := -32603;
                                    message := "Failed to execute query: Unknown error";
                                    data := None |} |}).
Proof.
  split.
  - apply (registered_tool_call sample_server script_call_request newResponse testAuth
             script_call_envelope script_call_params "generate_video_script"
             generate_video_script handler_ok).
    + unfold dispatched. repeat apply conj; vm_compute; reflexivity.
    + reflexivity.
    + reflexivity.
    + reflexivity.
    + discriminate.
    + vm_compute. reflexivity.
    + vm_compute. reflexivity.
  - apply (registered_tool_call sample_server query_call_request newResponse testAuth
             query_call_envelope query_call_params "supabase_query"
             supabase_query handler_failing).
    + unfold dispatched. repeat apply conj; vm_compute; reflexivity.
    + reflexivity.
    + reflexivity.
    + reflexivity.
    + discriminate.
    + vm_compute. reflexivity.
    + vm_compute. reflexivity.
Defined.

Lemma non_object_params_rejected_witness :
  payload (handleRequest sample_server array_params_call_request newResponse) =
    Json {| jsonrpc := "2.0"; resp_id := Some (JStr "5"); result := None;
            error := Some {| code := -32603; message := "Tool name is required";
                             data := None |} |}
  /\ handleRequest failing_server array_params_call_request newResponse =
     handleRequest sample_server array_params_call_request newResponse.
Proof.
  destruct (non_object_params_rejected sample_server array_params_call_request
              newResponse testAuth array_params_call_envelope)
    as (_ & (msg & Hp & Hmsg) & Hsame).
  - unfold dispatched. repeat apply conj; vm_compute; reflexivity.
  - reflexivity.
  - intros fields. vm_compute. discriminate.
  - rewrite (Hmsg (JArr [JStr "supabase_query"]) eq_refl) in Hp by discriminate.
    exact (conj Hp (Hsame failing_server)).
Defined.

Lemma body_error_is_masked_witness :
  statusCode (handleRequest sample_server broken_body_request newResponse) = 500
  /\ payload (handleRequest sample_server broken_body_request newResponse) =
       Json {| jsonrpc := "2.0"; resp_id := Some (JStr "internal_error");
               result := None;
               error := Some {| code := -32603; message := "Internal server error";
                                data := None |} |}.
Proof.
  exact (body_error_is_masked sample_server broken_body_request newResponse
           (ThrowError "Invalid JSON") eq_refl eq_refl).
Defined.

Lemma jwt_shaped_token_always_accepted_witness :
  MCPAuthManager.extractAuthFromRequest jwt_shaped_request =
    Some {| type := "jwt"; credential := "eyJ" |}
  /\ isValid {| type := "jwt"; credential := "eyJ" |} = true
  /\ statusCode (handleRequest sample_server jwt_shaped_request newResponse)
       ∈ [200; 400; 500].
Proof.
  apply (jwt_shaped_token_always_accepted sample_server jwt_shaped_request newResponse
           "eyJ").
  - reflexivity.
  - vm_compute. reflexivity.
  - reflexivity.
Defined.

Lemma short_api_key_rejected_witness :
  statusCode (handleRequest sample_server short_key_request newResponse) = 401
  /\ payload (handleRequest sample_server short_key_request newResponse) =
       Json {| jsonrpc := "2.0"; resp_id := Some (JStr "auth_invalid"); result := None;
               error := Some {| code := -32001; message := "Invalid credentials";
                                data := None |} |}.
Proof.
  apply (short_api_key_rejected sample_server short_key_request newResponse "short").
  - reflexivity.
  - vm_compute. reflexivity.
  - reflexivity.
  - simpl. lia.
Defined.

Lemma missing_environment_answers_500_witness :
  snd (handler (sample_platform ∅) "2024-01-01T00:00:00.000Z" None options_request
         newResponse) = None
  /\ statusCode (fst (handler (sample_platform ∅) "2024-01-01T00:00:00.000Z" None
                        options_request newResponse)) = 500.
Proof.
  destruct (missing_environment_answers_500 (sample_platform ∅)
              "2024-01-01T00:00:00.000Z" options_request newResponse)
    as (Hst & Hcode & _).
  - reflexivity.
  - vm_compute. discriminate.
  - exact (conj Hst Hcode).
Defined.

Lemma server_instance_is_reused_witness :
  snd (handler (sample_platform sample_env) "2024-01-01T00:00:00.000Z" None
         list_tools_request newResponse) = Some sample_server
  /\ handler (sample_platform ∅) "2024-01-01T00:00:00.000Z"
       (snd (handler (sample_platform sample_env) "2024-01-01T00:00:00.000Z" None
               list_tools_request newResponse))
       options_request newResponse =
     (handleRequest sample_server options_request newResponse, Some sample_server).
Proof.
  destruct (server_instance_is_reused (sample_platform sample_env) (sample_platform ∅)
              "2024-01-01T00:00:00.000Z" sample_server
              list_tools_request options_request newResponse newResponse)
    as (_ & Hst & Hnext).
  - vm_compute. reflexivity.
  - exact (conj Hst Hnext).
Defined.

Lemma nested_members_not_in_cache_key_witness :
  keyData "supabase_query" nested_parameters =
    "supabase_query:{" ++ quote "a" ++ ":{" ++ quote "b" ++ ":1}," ++ quote "b" ++ ":3}"
  /\ getCacheKey "supabase_query" nested_parameters =
     getCacheKey "supabase_query" nested_parameters_other.
Proof.
  destruct (nested_members_not_in_cache_key "supabase_query" nested_parameters
              nested_parameters_other) as (_ & Hkept & Hsame).
  split.
  - exact (Hkept "a" "b" "c" (JNum 1) (JNum 3) (JNum 2)
             eq_refl eq_refl eq_refl eq_refl).
  - exact (proj2 (Hsame eq_refl eq_refl)).
Defined.

Lemma cache_stays_bounded_witness :
  (length (cache (cacheResult 1000 "5d905f" (Some (JStr "r")) (new sample_options)))
   <= 100)%nat.
Proof.
  apply (cache_stays_bounded 1000 "5d905f" (Some (JStr "r")) (new sample_options)).
  simpl. lia.
Defined.

Lemma fresh_result_is_served_witness :
  getCachedResult 301000 "5d905f"
    (cacheResult 1000 "5d905f" (Some (JStr "r")) (new sample_options)) =
  (Some (JStr "r"), cacheResult 1000 "5d905f" (Some (JStr "r")) (new sample_options)).
Proof.
  apply (fresh_result_is_served 1000 301000 "5d905f" (Some (JStr "r"))
           (new sample_options)).
  - simpl. lia.
  - intros k e H. simpl in H. now apply elem_of_nil in H.
  - vm_compute. discriminate.
Defined.

Lemma expired_entry_is_dropped_witness :
  let '(served, cl') :=
    getCachedResult 301001 "5d905f"
      (set_cache [("5d905f", old_entry)] (new sample_options)) in
  served = Some JNull
  /\ map_get "5d905f" (cache cl') = None
  /\ (forall k, k <> "5d905f" ->
        map_get k (cache cl') =
        map_get k (cache (set_cache [("5d905f", old_entry)] (new sample_options))))
  /\ (length (cache cl')
      < length (cache (set_cache [("5d905f", old_entry)] (new sample_options))))%nat.
Proof.
  apply (expired_entry_is_dropped 301001 "5d905f" old_entry
           (set_cache [("5d905f", old_entry)] (new sample_options))).
  - reflexivity.
  - vm_compute. reflexivity.
Defined.

Lemma retry_gives_up_after_maxRetries_witness :
  makeRequestWithRetry network_down (rpc "tools/list" "req_1" None)
    (new sample_options) world0 =
  (Throw (ThrowError "fetch failed"),
   {| fetches := 4; sleeps := [1000; 2000; 3000] |}).
Proof.
  apply (proj1 (retry_gives_up_after_maxRetries network_down
                  (rpc "tools/list" "req_1" None) (new sample_options) world0
                  (fun _ => ThrowError "fetch failed") ltac:(vm_compute; discriminate)
                  (fun i _ => eq_refl))).
Defined.

Lemma retry_stops_at_first_success_witness :
  makeRequestWithRetry network_recovering (rpc "tools/list" "req_1" None)
    (new sample_options) world0 =
  (Ok script_response, {| fetches := 3; sleeps := [1000; 2000] |}).
Proof.
  apply (retry_stops_at_first_success network_recovering
           (rpc "tools/list" "req_1" None) (new sample_options) world0
           (fun _ => ThrowError "fetch failed") 2 script_response).
  - vm_compute. discriminate.
  - intros i Hi. destruct i as [|[|i]]; [reflexivity | reflexivity | lia].
  - reflexivity.
Defined.

Lemma negative_maxRetries_sends_nothing_witness :
  makeRequestWithRetry network_up (rpc "tools/list" "req_1" None)
    (new no_retry_options) world0 =
  (Throw (ThrowError "All retry attempts failed"), world0).
Proof.
  apply (negative_maxRetries_sends_nothing network_up (rpc "tools/list" "req_1" None)
           (new no_retry_options) world0).
  vm_compute. reflexivity.
Defined.

Lemma only_bearer_scheme_authenticates_witness :
  makeRequest (served_by sample_server) (rpc "tools/list" "req_1" None)
    (new sample_options) world0 =
  (Throw (ThrowError "HTTP 401: Unauthorized"), {| fetches := 1; sleeps := [] |}).
Proof.
  apply (only_bearer_scheme_authenticates sample_server (rpc "tools/list" "req_1" None)
           (new sample_options) world0).
  vm_compute. discriminate.
Defined.

Lemma colliding_call_answered_from_cache_witness :
  callTool network_down 2000 "req_2" 2001 "BB" [] true
    (cacheResult 1001 (getCacheKey "Aa" [])
       (Some (JObj [("script", JStr "Generated script"); ("word_count", JNum 2)]))
       (set_state CONNECTED (new bearer_options)))
    {| fetches := 1; sleeps := [] |} =
  (Ok (Some (JObj [("script", JStr "Generated script"); ("word_count", JNum 2)])),
   cacheResult 1001 (getCacheKey "Aa" [])
     (Some (JObj [("script", JStr "Generated script"); ("word_count", JNum 2)]))
     (set_state CONNECTED (new bearer_options)),
   {| fetches := 1; sleeps := [] |}).
Proof.
  apply (colliding_call_answered_from_cache network_up network_down
           1000 1001 2000 2001 "req_1" "req_2" EmptyString EmptyString []
           (set_state CONNECTED (new bearer_options)) _ world0 _ _).
  - reflexivity.
  - reflexivity.
  - simpl. lia.
  - intros k e H. simpl in H. now apply elem_of_nil in H.
  - reflexivity.
  - vm_compute. reflexivity.
  - reflexivity.
  - vm_compute. discriminate.
Defined.

Lemma listTools_loads_server_registry_witness :
  listTools (served_by sample_server) "req_1" (new bearer_options) world0 =
  (JArr (List.map tool_json (getAllTools (registry sample_server))),
   set_tools (JArr (List.map tool_json (getAllTools (registry sample_server))))
     (new bearer_options),
   {| fetches := 1; sleeps := [] |}).
Proof.
  apply (listTools_loads_server_registry sample_server "req_1" (new bearer_options)
           world0 "test-api-key-123456789").
  - reflexivity.
  - reflexivity.
  - reflexivity.
  - simpl. lia.
  - vm_compute. discriminate.
  - reflexivity.
Defined.
